(** * A shallow embedding of the CDS client (src/index.ts)

    The client is glue over an HTTP library: it normalises a base URL,
    fills in configuration defaults, decides which failures are retried,
    turns transport errors into [CDSError] values and exposes four
    operations.  JavaScript values are embedded as an inductive type,
    strings as lists of UTF-16 code units, numbers of JSON bodies as
    binary64 floats, and the asynchronous operations as functions in a
    small state-and-exception monad whose state is the log of what the
    client did on the wire. *)

From Stdlib Require Import List String Ascii ZArith NArith Bool Lia Floats.
From Stdlib Require Import DecimalString Sorted.
Import ListNotations.

Set Warnings "-register-all".

(** * Part I: the program *)

(** ** JavaScript strings *)

(** A JavaScript string is a sequence of UTF-16 code units; [length] is
    the [.length] property. *)
Definition code_unit := N.
Definition jsstring := list code_unit.

(** A source-code string literal. *)
Definition lit (s : string) : jsstring :=
  map N_of_ascii (list_ascii_of_string s).

(** The decimal text of an integer, as a template literal renders it. *)
Definition decimal (n : Z) : jsstring :=
  lit (NilZero.string_of_int (Z.to_int n)).

Fixpoint jsstring_eqb (a b : jsstring) : bool :=
  match a, b with
  | [], [] => true
  | x :: a', y :: b' => N.eqb x y && jsstring_eqb a' b'
  | _, _ => false
  end.

(** [strip_prefix p s] is [Some r] when [s = p ++ r]. *)
Fixpoint strip_prefix (p s : jsstring) : option jsstring :=
  match p, s with
  | [], _ => Some s
  | _ :: _, [] => None
  | a :: p', b :: s' => if N.eqb a b then strip_prefix p' s' else None
  end.

(** [s.startsWith(p)] *)
Definition startsWith (s p : jsstring) : bool :=
  match strip_prefix p s with Some _ => true | None => false end.

(** [s.endsWith(p)] *)
Definition endsWith (s p : jsstring) : bool :=
  startsWith (rev s) (rev p).

(** ** URL normalisation *)

Definition slash : code_unit := 47%N.

(** [s.replace(/\/$/, '')]: without the [m] flag [$] matches at the end of
    the input only, so the one possible match is a final slash. *)
Fixpoint replace_final_slash (s : jsstring) : jsstring :=
  match s with
  | [] => []
  | c :: t =>
      match t with
      | [] => if N.eqb c slash then [] else [c]
      | _ :: _ => c :: replace_final_slash t
      end
  end.

(** [s.replace(/^(https?:\/\/)?(www\.)?/, '')]: both groups are optional
    and greedy and nothing follows them, so the match takes a leading
    scheme when there is one and then a leading [www.] when there is
    one.  ([https?] backtracks to [http] only when the fifth unit is not
    [s], in which case [://] is what has to follow.) *)
Definition replace_scheme_www (url : jsstring) : jsstring :=
  let after_scheme :=
    match strip_prefix (lit "https://") url with
    | Some r => r
    | None =>
        match strip_prefix (lit "http://") url with
        | Some r => r
        | None => url
        end
    end in
  match strip_prefix (lit "www.") after_scheme with
  | Some r => r
  | None => after_scheme
  end.

(** [normalizeURL] (index.ts, lines 110-122). *)
Definition normalizeURL (url : jsstring) : jsstring :=
  let normalized := replace_final_slash (replace_scheme_www url) in
  if negb (startsWith normalized (lit "http://"))
     && negb (startsWith normalized (lit "https://"))
  then lit "https://" ++ normalized
  else normalized.

(** ** JavaScript values *)

(** What a response body, a property read or an [any]-typed variable can
    hold: [undefined], and the values [JSON.parse] produces.  [JObj] lists
    the own properties of a parsed object (their names are distinct). *)
Inductive JsValue : Type :=
| JUndefined
| JNull
| JBool (b : bool)
| JNum (x : float)
| JStr (s : jsstring)
| JArr (items : list JsValue)
| JObj (props : list (jsstring * JsValue)).

Fixpoint own_property (props : list (jsstring * JsValue)) (name : jsstring)
  : option JsValue :=
  match props with
  | [] => None
  | (k, v) :: rest =>
      if jsstring_eqb k name then Some v else own_property rest name
  end.

(** ECMAScript [ToBoolean]: [undefined], [null], [false], [0], [-0], [NaN]
    and the empty string are falsy, everything else is truthy. *)
Definition truthy (v : JsValue) : bool :=
  match v with
  | JUndefined | JNull => false
  | JBool b => b
  | JNum x => negb (PrimFloat.eqb x 0 || PrimFloat.is_nan x)
  | JStr s => match s with [] => false | _ :: _ => true end
  | JArr _ | JObj _ => true
  end.

(** [a || b] on values that are already evaluated. *)
Definition js_or (a b : JsValue) : JsValue :=
  if truthy a then a else b.

(** ** Results and exceptions *)

Inductive Method : Type := GET | POST.

(** What the client hands to the HTTP library for one call. *)
Record Request : Type := {
  method : Method;
  url : jsstring;
  params : list (jsstring * jsstring);
  payload : JsValue
}.

Module CDSError.
(** The third constructor argument is [any]: a response body in one
    branch of [handleError], the request object in another. *)
Inductive raw : Type :=
| nothing
| body (d : JsValue)
| request_object (r : Request).

(** [class CDSError extends Error] (index.ts, lines 34-43). *)
Record t : Type := make {
  message : jsstring;
  statusCode : option Z;
  response : raw
}.
End CDSError.

Module Rehandled.
(** A [CDSError] that [handleError] made of an error that was not the
    library's (index.ts, line 160 or 170, reached with the [CDSError] of
    an inner call): its [statusCode] and [response] are whatever
    [error.response.status] and [error.response.data] held. *)
Record t : Type := make {
  message : jsstring;
  statusCode : JsValue;
  response : JsValue
}.
End Rehandled.

Inductive Exception : Type :=
| ThrownCDSError (e : CDSError.t)
| ThrownTypeError
| ThrownRehandled (e : Rehandled.t).

(** The outcome of evaluating an expression or of awaiting a promise. *)
Inductive Result (A : Type) : Type :=
| Returned (a : A)
| Thrown (x : Exception).
Arguments Returned {A} a.
Arguments Thrown {A} x.

Definition bindR {A B} (r : Result A) (k : A -> Result B) : Result B :=
  match r with
  | Returned a => k a
  | Thrown x => Thrown x
  end.

Declare Scope result_scope.
Delimit Scope result_scope with result.
Notation "x <- r ;; k" := (bindR r (fun x => k))
  (at level 61, r at next level, right associativity) : result_scope.

(** [a || b] where evaluating [b] may throw: [b] is evaluated only when
    [a] is falsy. *)
Definition or_else (a : JsValue) (b : Result JsValue) : Result JsValue :=
  if truthy a then Returned a else b.

(** [v.name] for the property names index.ts reads ([data], [distanceKm],
    [error], [message]): none of them is defined on a built-in prototype,
    so the read finds an own property of an object or [undefined]; on
    [undefined] and [null] it throws a TypeError. *)
Definition get (v : JsValue) (name : string) : Result JsValue :=
  match v with
  | JUndefined | JNull => Thrown ThrownTypeError
  | JObj props =>
      match own_property props (lit name) with
      | Some x => Returned x
      | None => Returned JUndefined
      end
  | _ => Returned JUndefined
  end.

(** [v?.name] *)
Definition get_opt (v : JsValue) (name : string) : JsValue :=
  match get v name with
  | Returned x => x
  | Thrown _ => JUndefined
  end.

(** ** Responses and errors of the HTTP library *)

(** The response object, as far as index.ts reads it. *)
Record AxiosResponse : Type := {
  status : Z;
  data : JsValue
}.

Module AxiosError.
(** The error object: [response] is set when a response arrived,
    [request] when the request was sent, [code] is the transport's error
    code, [config] the request the error belongs to. *)
Record t : Type := make {
  response : option AxiosResponse;
  request : option Request;
  message : jsstring;
  code : option jsstring;
  config : Request
}.
End AxiosError.

(** ** Configuration *)

Module CDSClientConfig.
(** [interface CDSClientConfig] (index.ts, lines 4-10); [None] is an
    absent field.  The numeric fields are integers (milliseconds, a
    count), for which [0] is the one falsy value. *)
Record t : Type := make {
  baseURL : jsstring;
  username : option jsstring;
  password : option jsstring;
  timeout : option Z;
  retries : option Z
}.
End CDSClientConfig.

Module Config.
(** [Required<CDSClientConfig>], the type of [this.config]. *)
Record t : Type := make {
  baseURL : jsstring;
  username : jsstring;
  password : jsstring;
  timeout : Z;
  retries : Z
}.
End Config.

(** [x || d] for an optional string. *)
Definition string_or (x : option jsstring) (d : jsstring) : jsstring :=
  match x with
  | Some (c :: s) => c :: s
  | Some [] | None => d
  end.

(** [x || d] for an optional number. *)
Definition number_or (x : option Z) (d : Z) : Z :=
  match x with
  | Some n => if (n =? 0)%Z then d else n
  | None => d
  end.

(** The client after construction: its configuration and, when both
    credentials are non-empty, the text that is base64-encoded into the
    [Authorization] header. *)
Record CDSClient : Type := {
  config : Config.t;
  credentials : option jsstring
}.

(** [constructor] (index.ts, lines 49-105), as far as it computes values;
    the retry policy and the error interceptor it installs are
    [retryCondition] and [handleError] below. *)
Definition constructor (cfg : CDSClientConfig.t) : CDSClient :=
  let config :=
    Config.make
      (normalizeURL (CDSClientConfig.baseURL cfg))
      (string_or (CDSClientConfig.username cfg) [])
      (string_or (CDSClientConfig.password cfg) [])
      (number_or (CDSClientConfig.timeout cfg) 30000)
      (number_or (CDSClientConfig.retries cfg) 3) in
  {| config := config;
     credentials :=
       match Config.username config, Config.password config with
       | _ :: _, _ :: _ =>
           Some (Config.username config ++ lit ":" ++ Config.password config)
       | _, _ => None
       end |}.

(** ** The wire *)

(** Modelled from the spec: what one dispatch of a request ends in.  The
    HTTP library is not part of the repository. *)
Inductive Wire : Type :=
| Answered (status : Z) (body : JsValue)
| NoAnswer (code : option jsstring) (message : jsstring)
| NotSent (message : jsstring).

(** Modelled from the spec: how the HTTP library settles a dispatch.  A
    response with a 2xx status resolves; any other status is an error
    that carries the response; without a response the error carries the
    request when it was sent, and nothing when it was not. *)
Definition settle (rq : Request) (w : Wire) : AxiosResponse + AxiosError.t :=
  match w with
  | Answered st b =>
      let resp := {| status := st; data := b |} in
      if (200 <=? st)%Z && (st <? 300)%Z then inl resp
      else inr (AxiosError.make (Some resp) (Some rq)
                  (lit "Request failed with status code " ++ decimal st)
                  (Some (lit (if (400 <=? st)%Z && (st <? 500)%Z
                              then "ERR_BAD_REQUEST" else "ERR_BAD_RESPONSE")))
                  rq)
  | NoAnswer c m => inr (AxiosError.make None (Some rq) m c rq)
  | NotSent m => inr (AxiosError.make None None m None rq)
  end.

(** What the client does that can be observed from outside: a request
    put on the wire, a line of [console.warn], a wait. *)
Inductive Event : Type :=
| Sent (rq : Request)
| Warned (text : jsstring)
| Slept (ms : Z).

Definition Log := list Event.

Definition is_sent (e : Event) : bool :=
  match e with Sent _ => true | _ => false end.

Definition sent_count (log : Log) : nat := List.length (filter is_sent log).

(** [onRetry] (index.ts, lines 93-95). *)
Definition onRetry (retryCount : nat) (error : AxiosError.t) : Event :=
  Warned (lit "Retry attempt " ++ decimal (Z.of_nat retryCount)
          ++ lit " for " ++ url (AxiosError.config error)).

Definition retryableStatuses : list Z := [408; 429; 500; 502; 503; 504]%Z.

(** [Array.prototype.includes] on numbers. *)
Definition includes (l : list Z) (x : Z) : bool := existsb (Z.eqb x) l.

(** ** Vocabulary of the statements *)

(** The ways a caller can spell a base URL around a host: with or without
    a scheme, a [www.] prefix and a trailing slash. *)
Inductive Scheme : Type := NoScheme | Http | Https.

Definition scheme_text (sch : Scheme) : jsstring :=
  match sch with
  | NoScheme => []
  | Http => lit "http://"
  | Https => lit "https://"
  end.

Definition www_text (www : bool) : jsstring :=
  if www then lit "www." else [].

Definition slash_text (trailing : bool) : jsstring :=
  if trailing then [slash] else [].

Definition spelled (sch : Scheme) (www : bool) (host : jsstring)
  (trailing : bool) : jsstring :=
  scheme_text sch ++ www_text www ++ host ++ slash_text trailing.

(** A host that is not empty, does not itself begin with a scheme or with
    [www.], and does not end with a slash. *)
Definition plain_host (host : jsstring) : bool :=
  match host with [] => false | _ :: _ => true end
  && negb (startsWith host (lit "http://"))
  && negb (startsWith host (lit "https://"))
  && negb (startsWith host (lit "www."))
  && negb (endsWith host (lit "/")).

(** A [www.] segment immediately after the scheme. *)
Definition www_after_scheme (s : jsstring) : bool :=
  startsWith s (lit "https://www.") || startsWith s (lit "http://www.").

(** What the specification promises of a normalised base URL. *)
Definition normalized_as_specified (s : jsstring) : Prop :=
  startsWith s (lit "https://") = true
  /\ endsWith s (lit "/") = false
  /\ www_after_scheme s = false.

(** The field of an error body that [handleError] takes the message
    from: [error] when it is truthy, else [message] when it is truthy. *)
Definition server_message (data : JsValue) : option JsValue :=
  if truthy (get_opt data "error") then Some (get_opt data "error")
  else if truthy (get_opt data "message") then Some (get_opt data "message")
  else None.

(** The message before the per-status rules: the server's, or else the
    text of the transport error. *)
Definition original_message (error : AxiosError.t) (data : JsValue) : JsValue :=
  match server_message data with
  | Some v => v
  | None => JStr (AxiosError.message error)
  end.

(** The classification table of the specification: the statuses with a
    fixed message. *)
Definition fixed_message (status : Z) : option jsstring :=
  if (status =? 401)%Z then
    Some (lit "Authentication failed. Check your credentials.")
  else if (status =? 403)%Z then
    Some (lit "Access forbidden. You do not have permission.")
  else if (status =? 404)%Z then
    Some (lit "Resource not found. Check the endpoint URL.")
  else if (status =? 429)%Z then
    Some (lit "Rate limit exceeded. Please try again later.")
  else if includes [500; 502; 503; 504]%Z status then
    Some (lit "Server error. Please try again later.")
  else None.

(** An absent or empty string argument. *)
Definition empty (s : option jsstring) : Prop :=
  s = None \/ s = Some [].

(** An absent query, or one of fewer than two code units. *)
Definition too_short (query : option jsstring) : Prop :=
  match query with
  | None => True
  | Some q => (List.length q < 2)%nat
  end.

(** The request of [healthCheck]. *)
Definition health_request : Request :=
  {| method := GET; url := lit "/health_check"; params := [];
     payload := JUndefined |}.

(** The request of [calculateDistance]. *)
Definition distance_request (city1Id city2Id : jsstring) : Request :=
  {| method := POST; url := lit "/distance"; params := [];
     payload := JObj [(lit "City1", JStr city1Id); (lit "City2", JStr city2Id)] |}.

(** Whether a dispatch was answered with a 2xx status. *)
Definition answered_2xx (w : Wire) : bool :=
  match w with
  | Answered st _ => (200 <=? st)%Z && (st <? 300)%Z
  | _ => false
  end.

(** The backoff delays of a log, in order. *)
Definition delays (log : Log) : list Z :=
  flat_map (fun e => match e with Slept ms => [ms] | _ => [] end) log.

(** ** Instances for the examples *)

(** A rendering of numbers for inputs that hold none. *)
Definition no_rendering (x : float) : jsstring := [].

(** An instance of the retry library's predicate: a request that was sent
    and not answered, or a 5xx answer to a GET. *)
Definition network_or_idempotent (e : AxiosError.t) : bool :=
  match AxiosError.response e, AxiosError.request e with
  | None, Some _ => true
  | None, None => false
  | Some resp, _ =>
      match method (AxiosError.config e) with
      | GET => (500 <=? status resp)%Z && (status resp <=? 599)%Z
      | POST => false
      end
  end.

(** A server that answers every request with the same status and body. *)
Definition always (st : Z) (b : JsValue) : nat -> Request -> Wire :=
  fun _ _ => Answered st b.

(** A network that never answers. *)
Definition unreachable : nat -> Request -> Wire :=
  fun _ _ => NoAnswer (Some (lit "ECONNREFUSED")) (lit "connect ECONNREFUSED").

Definition example_client : CDSClient :=
  constructor
    (CDSClientConfig.make (lit "www.example.com/") None None None None).

(** A 404 answer whose body names its own error. *)
Definition not_found_error : AxiosError.t :=
  AxiosError.make
    (Some {| status := 404;
             data := JObj [(lit "error", JStr (lit "No such city"))] |})
    (Some (distance_request (lit "a") (lit "b")))
    (lit "Request failed with status code 404")
    (Some (lit "ERR_BAD_REQUEST"))
    (distance_request (lit "a") (lit "b")).

(** A 418 answer whose body names its own error. *)
Definition teapot_error : AxiosError.t :=
  AxiosError.make
    (Some {| status := 418;
             data := JObj [(lit "error", JStr (lit "I am a teapot"))] |})
    (Some (distance_request (lit "a") (lit "b")))
    (lit "Request failed with status code 418")
    (Some (lit "ERR_BAD_REQUEST"))
    (distance_request (lit "a") (lit "b")).

(** A request that was sent and not answered. *)
Definition timeout_error : AxiosError.t :=
  AxiosError.make None (Some health_request)
    (lit "timeout of 30000ms exceeded") (Some (lit "ECONNABORTED"))
    health_request.

(** ** The hooks (index.ts, lines 231-301) *)

(** [interface UseCDSOptions]: the client, and whether an [onError]
    callback was given.  The callback is one that returns normally. *)
Record UseCDSOptions : Type := {
  client : CDSClient;
  onError : bool
}.

Module useCitySuggestions.
(** The three [useState] cells of the hook. *)
Record state : Type := make {
  suggestions : JsValue;
  loading : bool;
  error : option Exception
}.

(** The cells as [useState] initialises them. *)
Definition initial : state := make (JArr []) false None.

(** A call of one of the three setters. *)
Inductive update : Type :=
| setSuggestions (v : JsValue)
| setLoading (b : bool)
| setError (e : option Exception).

Definition apply (st : state) (u : update) : state :=
  match u with
  | setSuggestions v => make v (loading st) (error st)
  | setLoading b => make (suggestions st) b (error st)
  | setError e => make (suggestions st) (loading st) e
  end.

(** The cells after the setter calls of one run, in program order. *)
Definition after (st : state) (us : list update) : state :=
  fold_left apply us st.
End useCitySuggestions.

Module useDistanceCalculation.
(** The three [useState] cells of the hook; [distance] is a number or
    [null]. *)
Record state : Type := make {
  distance : JsValue;
  loading : bool;
  error : option Exception
}.

Definition initial : state := make JNull false None.

Inductive update : Type :=
| setDistance (v : JsValue)
| setLoading (b : bool)
| setError (e : option Exception).

Definition apply (st : state) (u : update) : state :=
  match u with
  | setDistance v => make v (loading st) (error st)
  | setLoading b => make (distance st) b (error st)
  | setError e => make (distance st) (loading st) e
  end.

Definition after (st : state) (us : list update) : state :=
  fold_left apply us st.
End useDistanceCalculation.

(** What one run of a hook's callback did: the setter calls, the
    arguments [onError] was called with, and the log of the client. *)
Record Run (U : Type) : Type := {
  updates : list U;
  reported : list Exception;
  log_after : Log
}.
Arguments updates {U} r.
Arguments reported {U} r.
Arguments log_after {U} r.

(** [if (options.onError) options.onError(error)] *)
Definition report (options : UseCDSOptions) (err : Exception) : list Exception :=
  if onError options then [err] else [].

(** ** The page (unnamed/part_000) *)

(** What [fetch] and [response.json()] end in: a network failure, or a
    response with its status and its body parsed as JSON ([None] when
    the body is not JSON). *)
Inductive FetchOutcome : Type :=
| FetchFailed
| Responded (status : Z) (json : option JsValue).

(** [response.ok] *)
Definition response_ok (status : Z) : bool :=
  (200 <=? status)%Z && (status <=? 299)%Z.

(** The text the page shows for every failure. *)
Definition error_text : jsstring :=
  lit "An error occurred. Please try again later.".

(** The sentence the page shows for a distance. *)
Definition distance_text (city1 city2 shown : jsstring) : jsstring :=
  lit "Distance between '" ++ city1 ++ lit "' and '" ++ city2
  ++ lit "' is: " ++ shown.

(** The outcomes for which the page has no distance to show. *)
Definition fetch_failure (to_string : JsValue -> Result jsstring)
  (outcome : FetchOutcome) : Prop :=
  match outcome with
  | FetchFailed => True
  | Responded st json =>
      response_ok st = false
      \/ json = None
      \/ exists data x, json = Some data /\ to_string data = Thrown x
  end.

(** The requests of [getSuggestions] and [getVersion]. *)
Definition suggestions_request (query : jsstring) : Request :=
  {| method := GET; url := lit "/suggestions";
     params := [(lit "q", query)]; payload := JUndefined |}.

Definition version_request : Request :=
  {| method := GET; url := lit "/version"; params := [];
     payload := JUndefined |}.

(** ** More instances for the examples *)

(** A 418 answer whose error field is an object with an own [toString]
    property. *)
Definition unprintable_error : AxiosError.t :=
  AxiosError.make
    (Some {| status := 418;
             data := JObj [(lit "error", JObj [(lit "toString", JNum 1)])] |})
    (Some health_request)
    (lit "Request failed with status code 418")
    (Some (lit "ERR_BAD_REQUEST"))
    health_request.

(** A 503 answer to a POST. *)
Definition unavailable_error : AxiosError.t :=
  AxiosError.make
    (Some {| status := 503; data := JStr [] |})
    (Some (distance_request (lit "a") (lit "b")))
    (lit "Request failed with status code 503")
    (Some (lit "ERR_BAD_RESPONSE"))
    (distance_request (lit "a") (lit "b")).

Definition example_options : UseCDSOptions :=
  {| client := example_client; onError := true |}.

(** The error of [calculateDistance] for a missing identifier. *)
Definition ids_required : Exception :=
  ThrownCDSError (CDSError.make (lit "Both city IDs are required")
                    None CDSError.nothing).

(** ** The client *)

Section Client.

(** [Number.prototype.toString], the decimal rendering of a binary64. *)
Variable Number_toString : float -> jsstring.

(** The predicate of the retry library that recognises a network-level
    failure, or a transport-level error on an idempotent request. *)
Variable isNetworkOrIdempotentRequestError : AxiosError.t -> bool.

(** The base delay of the retry library's backoff, in milliseconds. *)
Variable baseDelay : Z.

(** The environment: the outcome of the [n]-th dispatch (counted from 0
    over the life of the client). *)
Variable world : nat -> Request -> Wire.

Local Open Scope result_scope.

Fixpoint join (parts : list (Result jsstring)) : Result jsstring :=
  match parts with
  | [] => Returned []
  | [p] => p
  | p :: rest =>
      a <- p ;; b <- join rest ;; Returned (a ++ lit "," ++ b)
  end.

(** ECMAScript [ToString], which a template literal and the [Error]
    constructor apply to a value.  An array is joined with commas
    ([undefined] and [null] items as empty strings); an object is
    [[object Object]] unless it has an own property [toString], which for
    a parsed body is never callable: then the conversion throws. *)
Fixpoint ToString (v : JsValue) : Result jsstring :=
  match v with
  | JUndefined => Returned (lit "undefined")
  | JNull => Returned (lit "null")
  | JBool b => Returned (lit (if b then "true" else "false"))
  | JNum x => Returned (Number_toString x)
  | JStr s => Returned s
  | JArr items =>
      join (map (fun x => match x with
                          | JUndefined | JNull => Returned []
                          | _ => ToString x
                          end) items)
  | JObj props =>
      match own_property props (lit "toString") with
      | Some _ => Thrown ThrownTypeError
      | None => Returned (lit "[object Object]")
      end
  end.

(** [new CDSError(message, statusCode, response)]: [super(message)] stores
    [ToString(message)], or leaves the inherited empty message when the
    argument is [undefined]. *)
Definition new_CDSError (message : JsValue) (statusCode : option Z)
  (response : CDSError.raw) : Result CDSError.t :=
  match message with
  | JUndefined => Returned (CDSError.make [] statusCode response)
  | _ => m <- ToString message ;;
         Returned (CDSError.make m statusCode response)
  end.

(** The [switch (status)] of [handleError] (index.ts, lines 136-158). *)
Definition friendly_message (status : Z) (message : JsValue) : Result JsValue :=
  if (status =? 400)%Z then
    m <- ToString message ;; Returned (JStr (lit "Invalid request: " ++ m))
  else if (status =? 401)%Z then
    Returned (JStr (lit "Authentication failed. Check your credentials."))
  else if (status =? 403)%Z then
    Returned (JStr (lit "Access forbidden. You do not have permission."))
  else if (status =? 404)%Z then
    Returned (JStr (lit "Resource not found. Check the endpoint URL."))
  else if (status =? 429)%Z then
    Returned (JStr (lit "Rate limit exceeded. Please try again later."))
  else if (status =? 500)%Z || (status =? 502)%Z
          || (status =? 503)%Z || (status =? 504)%Z then
    Returned (JStr (lit "Server error. Please try again later."))
  else Returned message.

(** [handleError] (index.ts, lines 127-172). *)
Definition handleError (error : AxiosError.t) : Result CDSError.t :=
  match AxiosError.response error with
  | Some resp =>
      let status := status resp in
      let data := data resp in
      let message :=
        js_or (js_or (get_opt data "error") (get_opt data "message"))
              (JStr (AxiosError.message error)) in
      message <- friendly_message status message ;;
      new_CDSError message (Some status) (CDSError.body data)
  | None =>
      match AxiosError.request error with
      | Some rq =>
          new_CDSError
            (JStr (lit "No response from server. Check your network connection."))
            None (CDSError.request_object rq)
      | None =>
          new_CDSError (JStr (AxiosError.message error)) None CDSError.nothing
      end
  end.

(** [retryCondition] (index.ts, lines 81-92). *)
Definition retryCondition (error : AxiosError.t) : bool :=
  if isNetworkOrIdempotentRequestError error then true
  else
    match AxiosError.response error with
    | Some resp => includes retryableStatuses (status resp)
    | None => false
    end.

(** Modelled from the spec: the backoff of the retry library, which is
    not part of the repository.  The delay before retry [n] (counted from
    1) is the base delay times [2^(n-1)]; no jitter. *)
Definition exponentialDelay (retryCount : nat) : Z :=
  (baseDelay * 2 ^ Z.of_nat (retryCount - 1))%Z.

(** Modelled from the spec: the retry library's loop, which is not part
    of the repository.  A failed attempt is repeated while
    [retryCondition] holds of its error and fewer than [retries] retries
    were made; each retry is announced by [onRetry] and waits for the
    backoff delay.  [left] counts the retries still allowed, [retryCount]
    those already made. *)
Fixpoint attempts (left retryCount : nat) (rq : Request) (log : Log)
  : (AxiosResponse + AxiosError.t) * Log :=
  let log1 := log ++ [Sent rq] in
  match settle rq (world (sent_count log) rq) with
  | inl resp => (inl resp, log1)
  | inr error =>
      if retryCondition error then
        match left with
        | O => (inr error, log1)
        | S left' =>
            attempts left' (S retryCount) rq
              (log1 ++ [onRetry (S retryCount) error;
                        Slept (exponentialDelay (S retryCount))])
        end
      else (inr error, log1)
  end.

(** An asynchronous method: it reads and extends the log and either
    resolves with a value or rejects with an exception. *)
Definition M (A : Type) : Type := Log -> Result A * Log.

Definition ret {A} (a : A) : M A := fun log => (Returned a, log).

Definition throw {A} (x : Exception) : M A := fun log => (Thrown x, log).

Definition bind {A B} (m : M A) (k : A -> M B) : M B :=
  fun log =>
    match m log with
    | (Returned a, log') => k a log'
    | (Thrown x, log') => (Thrown x, log')
    end.

Definition lift {A} (r : Result A) : M A := fun log => (r, log).

(** [try { m } catch (error) { h }] *)
Definition try_catch {A} (m : M A) (h : Exception -> M A) : M A :=
  fun log =>
    match m log with
    | (Returned a, log') => (Returned a, log')
    | (Thrown x, log') => h x log'
    end.

Declare Scope async_scope.
Delimit Scope async_scope with async.
Notation "x <- 'await' m ;; k" := (bind m (fun x => k))
  (at level 61, m at next level, right associativity) : async_scope.

(** [throw new CDSError(message)] *)
Definition throw_CDSError {A} (message : string) : M A :=
  bind (lift (new_CDSError (JStr (lit message)) None CDSError.nothing))
    (fun e => throw (ThrownCDSError e)).

(** The response interceptor (index.ts, lines 99-104) on an error of the
    library: it throws what [handleError] makes of it, or what
    [handleError] throws. *)
Definition intercept (error : AxiosError.t) : Exception :=
  match handleError error with
  | Returned e => ThrownCDSError e
  | Thrown x => x
  end.

(** The text of the TypeError of a failed conversion to a string, as
    Node's engine words it. *)
Definition type_error_text : jsstring :=
  lit "Cannot convert object to primitive value".

(** The statuses the [switch] of [handleError] has a case for, as the
    numbers [===] compares with. *)
Definition switch_cases : list (float * Z) :=
  [(400%float, 400%Z); (401%float, 401%Z); (403%float, 403%Z);
   (404%float, 404%Z); (429%float, 429%Z); (500%float, 500%Z);
   (502%float, 502%Z); (503%float, 503%Z); (504%float, 504%Z)].

(** The case a value of any type selects: [case k] is taken when the
    value is a number equal to [k]. *)
Definition switch_case_of (status : JsValue) : option Z :=
  match status with
  | JNum x =>
      option_map snd (find (fun kz => PrimFloat.eqb x (fst kz)) switch_cases)
  | _ => None
  end.

(** [handleError] (index.ts, lines 127-172) on an object that is not an
    error of the library but has a [message], no [request] and, as its
    [response], any value: the [CDSError] of an inner call (whose
    [response] is the third constructor argument), or a TypeError (whose
    [response] is [undefined]).  A truthy [response] is read as if it
    were a response object; a falsy one leads to the last branch. *)
Definition handleError_again (response : JsValue) (message : jsstring)
  : Result Rehandled.t :=
  if truthy response then
    let status := get_opt response "status" in
    let data := get_opt response "data" in
    let message :=
      js_or (js_or (get_opt data "error") (get_opt data "message"))
            (JStr message) in
    message <- match switch_case_of status with
               | Some k => friendly_message k message
               | None => Returned message
               end ;;
    m <- match message with
         | JUndefined => Returned []
         | _ => ToString message
         end ;;
    Returned (Rehandled.make m status data)
  else Returned (Rehandled.make message JUndefined JUndefined).

(** The response interceptor on what an inner call threw.  The request
    object of the Node adapter, the [response] of a [CDSError] made for a
    request without an answer, is truthy and has neither a [status] nor a
    [data] property. *)
Definition rethrow (x : Exception) : Exception :=
  let again :=
    match x with
    | ThrownCDSError e =>
        match CDSError.response e with
        | CDSError.nothing => handleError_again JUndefined (CDSError.message e)
        | CDSError.body d => handleError_again d (CDSError.message e)
        | CDSError.request_object _ =>
            Returned (Rehandled.make (CDSError.message e) JUndefined JUndefined)
        end
    | ThrownRehandled e =>
        handleError_again (Rehandled.response e) (Rehandled.message e)
    | ThrownTypeError => handleError_again JUndefined type_error_text
    end in
  match again with
  | Returned e => ThrownRehandled e
  | Thrown y => y
  end.

(** Modelled from the spec and from how the retry library is installed
    (index.ts, lines 78-104): a request through [this.client].  The
    retry library retries by issuing the request again through the same
    instance, so a retry is a whole inner call, with the response
    interceptor of lines 99-104 in its own chain; what the inner call
    throws then passes through that interceptor once more in the chain
    of the outer call.  The attempts and the log are those of
    [attempts]. *)
Fixpoint instance_request (left retryCount : nat) (rq : Request) (log : Log)
  : Result AxiosResponse * Log :=
  let log1 := log ++ [Sent rq] in
  match settle rq (world (sent_count log) rq) with
  | inl resp => (Returned resp, log1)
  | inr error =>
      if retryCondition error then
        match left with
        | O => (Thrown (intercept error), log1)
        | S left' =>
            match instance_request left' (S retryCount) rq
                    (log1 ++ [onRetry (S retryCount) error;
                              Slept (exponentialDelay (S retryCount))]) with
            | (Returned resp, log2) => (Returned resp, log2)
            | (Thrown x, log2) => (Thrown (rethrow x), log2)
            end
        end
      else (Thrown (intercept error), log1)
  end.

(** A call through [this.client]. *)
Definition client_request (c : CDSClient) (rq : Request) : M AxiosResponse :=
  instance_request (Z.to_nat (Config.retries (config c))) 0 rq.

Definition client_get (c : CDSClient) (path : string)
  (params : list (jsstring * jsstring)) : M AxiosResponse :=
  client_request c
    {| method := GET; url := lit path; params := params; payload := JUndefined |}.

Definition client_post (c : CDSClient) (path : string) (payload : JsValue)
  : M AxiosResponse :=
  client_request c
    {| method := POST; url := lit path; params := []; payload := payload |}.

(** [!s] for an optional string: absent and empty are falsy. *)
Definition falsy_string (s : option jsstring) : bool :=
  match s with
  | Some (_ :: _) => false
  | Some [] | None => true
  end.

Definition string_value (s : option jsstring) : jsstring :=
  match s with Some x => x | None => [] end.

Local Open Scope async_scope.

(** [getSuggestions] (index.ts, lines 177-188). *)
Definition getSuggestions (c : CDSClient) (query : option jsstring) : M JsValue :=
  if falsy_string query || (List.length (string_value query) <? 2)%nat then
    throw_CDSError "Query must be at least 2 characters long"
  else
    response <- await client_get c "/suggestions" [(lit "q", string_value query)] ;;
    lift (inner <- get (data response) "data" ;;
          or_else inner (Returned (data response)))%result.

(** [calculateDistance] (index.ts, lines 193-206). *)
Definition calculateDistance (c : CDSClient) (city1Id city2Id : option jsstring)
  : M JsValue :=
  if falsy_string city1Id || falsy_string city2Id then
    throw_CDSError "Both city IDs are required"
  else
    response <- await client_post c "/distance"
                        (JObj [(lit "City1", JStr (string_value city1Id));
                               (lit "City2", JStr (string_value city2Id))]) ;;
    let data := data response in
    lift (distanceKm <- get data "distanceKm" ;;
          or_else distanceKm
            (inner <- get data "data" ;; or_else inner (Returned data)))%result.

(** [healthCheck] (index.ts, lines 211-218). *)
Definition healthCheck (c : CDSClient) : M bool :=
  try_catch
    (_ <- await client_get c "/health_check" [] ;; ret true)
    (fun _ => ret false).

(** [getVersion] (index.ts, lines 223-226). *)
Definition getVersion (c : CDSClient) : M JsValue :=
  response <- await client_get c "/version" [] ;; ret (data response).


(** What retry number [i] of a request adds to the log. *)
Definition retry_round (rq : Request) (i : nat) : list Event :=
  [Warned (lit "Retry attempt " ++ decimal (Z.of_nat i) ++ lit " for " ++ url rq);
   Slept (exponentialDelay i);
   Sent rq].

(** The log of a call that was retried [k] times after [made] earlier
    retries. *)
Definition retry_trace (rq : Request) (made k : nat) : list Event :=
  Sent rq :: flat_map (retry_round rq) (seq (S made) k).

(** [search] of [useCitySuggestions] (index.ts, lines 244-268). *)
Definition search (options : UseCDSOptions) (query : jsstring) (log : Log)
  : Run useCitySuggestions.update :=
  if (List.length query <? 2)%nat then
    {| updates := [useCitySuggestions.setSuggestions (JArr [])];
       reported := [];
       log_after := log |}
  else
    let before := [useCitySuggestions.setLoading true;
                   useCitySuggestions.setError None] in
    match getSuggestions (client options) (Some query) log with
    | (Returned results, log') =>
        {| updates := before ++ [useCitySuggestions.setSuggestions results;
                                 useCitySuggestions.setLoading false];
           reported := [];
           log_after := log' |}
    | (Thrown err, log') =>
        {| updates := before ++ [useCitySuggestions.setError (Some err);
                                 useCitySuggestions.setLoading false];
           reported := report options err;
           log_after := log' |}
    end.

(** [calculate] of [useDistanceCalculation] (index.ts, lines 278-298). *)
Definition calculate (options : UseCDSOptions) (city1Id city2Id : jsstring)
  (log : Log) : Run useDistanceCalculation.update :=
  let before := [useDistanceCalculation.setLoading true;
                 useDistanceCalculation.setError None;
                 useDistanceCalculation.setDistance JNull] in
  match calculateDistance (client options) (Some city1Id) (Some city2Id) log with
  | (Returned result, log') =>
      {| updates := before ++ [useDistanceCalculation.setDistance result;
                               useDistanceCalculation.setLoading false];
         reported := [];
         log_after := log' |}
  | (Thrown err, log') =>
      {| updates := before ++ [useDistanceCalculation.setError (Some err);
                               useDistanceCalculation.setLoading false];
         reported := report options err;
         log_after := log' |}
  end.

(** The click handler of the search button (unnamed/part_000, lines
    1-29): the text it leaves in the result element.  Whatever goes wrong
    in the promise chain ends in the one [catch]. *)
Definition searchBtn_click (city1 city2 : jsstring) (outcome : FetchOutcome)
  : jsstring :=
  let shown : option jsstring :=
    match outcome with
    | FetchFailed => None
    | Responded st json =>
        if response_ok st then
          match json with
          | Some data =>
              match ToString data with
              | Returned s => Some (distance_text city1 city2 s)
              | Thrown _ => None
              end
          | None => None
          end
        else None
    end in
  match shown with
  | Some text => text
  | None => error_text
  end.

(** * Part II: properties *)

(** ** Strings *)

Lemma strip_prefix_app (p s : jsstring) : strip_prefix p (p ++ s) = Some s.
Proof.
  induction p as [|a p IH]; simpl.
  - reflexivity.
  - rewrite N.eqb_refl. exact IH.
Qed.

Lemma strip_prefix_Some (p s r : jsstring) :
  strip_prefix p s = Some r -> s = p ++ r.
Proof.
  revert s; induction p as [|a p IH]; intros s H; simpl in *.
  - now inversion H.
  - destruct s as [|b s]; [discriminate|].
    destruct (N.eqb_spec a b) as [->|]; [|discriminate].
    now rewrite (IH _ H).
Qed.

Lemma startsWith_app (p s : jsstring) : startsWith (p ++ s) p = true.
Proof. unfold startsWith. now rewrite strip_prefix_app. Qed.

Lemma startsWith_false (s p : jsstring) :
  startsWith s p = false -> strip_prefix p s = None.
Proof. unfold startsWith. now destruct (strip_prefix p s). Qed.

(** A prefix of [h ++ [c]] is a prefix of [h] or the whole string. *)
Lemma startsWith_snoc (h p : jsstring) (c : code_unit) :
  startsWith (h ++ [c]) p = true -> startsWith h p = true \/ p = h ++ [c].
Proof.
  unfold startsWith. revert p; induction h as [|b h IH]; intros p H.
  - destruct p as [|a p]; [now left|]. right. simpl in *.
    destruct (N.eqb_spec a c) as [->|]; [|discriminate].
    destruct p; [reflexivity|discriminate].
  - destruct p as [|a p]; [now left|]. simpl in *.
    destruct (N.eqb_spec a b) as [->|]; [|discriminate].
    destruct (IH p H) as [Hl| ->]; [now left|now right].
Qed.

Lemma replace_final_slash_snoc (h : jsstring) :
  replace_final_slash (h ++ [slash]) = h.
Proof.
  induction h as [|b h IH]; [reflexivity|].
  cbn [app replace_final_slash]. rewrite IH.
  destruct h; reflexivity.
Qed.

Lemma endsWith_snoc (h : jsstring) (c : code_unit) :
  endsWith (h ++ [c]) [slash] = N.eqb slash c.
Proof.
  unfold endsWith, startsWith. rewrite rev_app_distr.
  cbn [rev app strip_prefix].
  now destruct (N.eqb slash c).
Qed.

Lemma replace_final_slash_id (h : jsstring) :
  endsWith h [slash] = false -> replace_final_slash h = h.
Proof.
  induction h as [|b h IH]; [reflexivity|]. intros H.
  destruct h as [|b' h].
  - change [b] with ([] ++ [b]) in H. rewrite endsWith_snoc in H.
    simpl. now rewrite N.eqb_sym, H.
  - change (replace_final_slash (b :: b' :: h))
      with (b :: replace_final_slash (b' :: h)).
    rewrite IH; [reflexivity|].
    destruct (exists_last (l := b' :: h)) as (l & c & E); [discriminate|].
    rewrite E in *. rewrite app_comm_cons in H.
    now rewrite endsWith_snoc in *.
Qed.

Lemma endsWith_app (x h : jsstring) :
  h <> [] -> endsWith (x ++ h) [slash] = endsWith h [slash].
Proof.
  intros Hh. destruct (exists_last Hh) as (l & c & ->).
  now rewrite app_assoc, !endsWith_snoc.
Qed.


(** ** URL normalisation *)

Lemma plain_host_inv (host : jsstring) :
  plain_host host = true ->
  host <> []
  /\ startsWith host (lit "http://") = false
  /\ startsWith host (lit "https://") = false
  /\ startsWith host (lit "www.") = false
  /\ endsWith host [slash] = false.
Proof.
  unfold plain_host. intros H.
  repeat (apply andb_prop in H; destruct H as [H ?]).
  repeat match goal with
         | X : negb _ = true |- _ => apply negb_true_iff in X
         end.
  repeat split; try assumption.
  intros ->. discriminate.
Qed.

(** Appending the optional trailing slash to a plain host creates none of
    the prefixes the first replacement looks for. *)
Lemma plain_host_slash_prefix (host p : jsstring) (trailing : bool) :
  startsWith host p = false ->
  endsWith host [slash] = false ->
  endsWith p [slash] = false \/ endsWith (removelast p) [slash] = true ->
  strip_prefix p (host ++ slash_text trailing) = None.
Proof.
  intros Hp Hs Hlast. apply startsWith_false.
  destruct trailing; cbn [slash_text]; [|now rewrite app_nil_r].
  destruct (startsWith (host ++ [slash]) p) eqn:E; [|reflexivity].
  destruct (startsWith_snoc _ _ _ E) as [H| ->]; [congruence|].
  rewrite endsWith_snoc, N.eqb_refl, removelast_last in Hlast.
  destruct Hlast; congruence.
Qed.

Lemma replace_scheme_www_spelled (sch : Scheme) (www : bool) (rest : jsstring) :
  strip_prefix (lit "https://") rest = None ->
  strip_prefix (lit "http://") rest = None ->
  strip_prefix (lit "www.") rest = None ->
  replace_scheme_www (scheme_text sch ++ www_text www ++ rest) = rest.
Proof.
  intros H1 H2 H3. unfold replace_scheme_www. cbv zeta.
  destruct sch, www; cbn [scheme_text www_text app].
  - change (strip_prefix (lit "https://") (lit "www." ++ rest)) with (@None jsstring).
    change (strip_prefix (lit "http://") (lit "www." ++ rest)) with (@None jsstring).
    cbv iota. now rewrite strip_prefix_app.
  - now rewrite H1, H2, H3.
  - change (strip_prefix (lit "https://") (lit "http://" ++ lit "www." ++ rest))
      with (@None jsstring).
    cbv iota. now rewrite !strip_prefix_app.
  - change (strip_prefix (lit "https://") (lit "http://" ++ rest))
      with (@None jsstring).
    cbv iota. now rewrite strip_prefix_app, H3.
  - now rewrite !strip_prefix_app.
  - now rewrite strip_prefix_app, H3.
Qed.

(** The base URL of a plainly spelled host. *)
Lemma normalizeURL_spelled (sch : Scheme) (www : bool) (host : jsstring)
  (trailing : bool) :
  plain_host host = true ->
  normalizeURL (spelled sch www host trailing) = lit "https://" ++ host.
Proof.
  intros H. destruct (plain_host_inv _ H) as (Hne & Hhttp & Hhttps & Hwww & Hs).
  unfold normalizeURL, spelled.
  rewrite replace_scheme_www_spelled.
  - assert (E : replace_final_slash (host ++ slash_text trailing) = host).
    { destruct trailing; cbn [slash_text].
      - apply replace_final_slash_snoc.
      - rewrite app_nil_r. now apply replace_final_slash_id. }
    rewrite E, Hhttp, Hhttps. reflexivity.
  - apply plain_host_slash_prefix; [assumption|assumption|right; reflexivity].
  - apply plain_host_slash_prefix; [assumption|assumption|right; reflexivity].
  - apply plain_host_slash_prefix; [assumption|assumption|left; reflexivity].
Qed.

(** C1 (amended): for every base URL spelled as an optional [http://] or
    [https://], an optional [www.], a host and an optional trailing slash,
    where the host is not empty, does not itself begin with a scheme or
    with [www.] and does not end with a slash, [normalizeURL] returns
    [https://] followed by the host: the result starts with [https://],
    does not end with a slash and has no [www.] after the scheme,
    whichever combination of scheme, [www.] and trailing slash the input
    had. *)
Theorem normalizeURL_plain_host (sch : Scheme) (www : bool) (host : jsstring)
  (trailing : bool) :
  plain_host host = true ->
  normalizeURL (spelled sch www host trailing) = lit "https://" ++ host
  /\ normalized_as_specified (normalizeURL (spelled sch www host trailing)).
Proof.
  intros H. rewrite (normalizeURL_spelled sch www host trailing H).
  destruct (plain_host_inv _ H) as (Hne & Hhttp & Hhttps & Hwww & Hs).
  split; [reflexivity|]. unfold normalized_as_specified. split; [|split].
  - apply startsWith_app.
  - change (lit "/") with [slash]. now rewrite endsWith_app.
  - unfold www_after_scheme.
    change (lit "https://www.") with (lit "https://" ++ lit "www.").
    unfold startsWith at 1.
    destruct (strip_prefix (lit "https://" ++ lit "www.") (lit "https://" ++ host))
      as [r|] eqn:E.
    + apply strip_prefix_Some in E. rewrite <- app_assoc in E.
      apply app_inv_head in E. subst host.
      now rewrite startsWith_app in Hwww.
    + reflexivity.
Qed.


(** X1: whatever the input, the normalised base URL starts with
    [https://] or with [http://]. *)
Theorem normalizeURL_has_scheme (url : jsstring) :
  startsWith (normalizeURL url) (lit "https://") = true
  \/ startsWith (normalizeURL url) (lit "http://") = true.
Proof.
  unfold normalizeURL. cbv zeta.
  destruct (startsWith (replace_final_slash (replace_scheme_www url))
              (lit "http://")) eqn:E1; cbn [negb andb].
  - right. exact E1.
  - destruct (startsWith (replace_final_slash (replace_scheme_www url))
                (lit "https://")) eqn:E2; cbn [negb].
    + left. exact E2.
    + left. apply startsWith_app.
Qed.

(** ** Construction *)

(** C10: the constructor replaces an absent or zero [timeout] by 30000
    and an absent or zero [retries] by 3, keeps every other value, and
    replaces an absent or empty [username] or [password] by the empty
    string; so the configured timeout and retry count are never zero. *)
Theorem constructor_defaults (cfg : CDSClientConfig.t) :
  let c := config (constructor cfg) in
  (CDSClientConfig.timeout cfg = None \/ CDSClientConfig.timeout cfg = Some 0%Z ->
   Config.timeout c = 30000%Z)
  /\ (CDSClientConfig.retries cfg = None \/ CDSClientConfig.retries cfg = Some 0%Z ->
      Config.retries c = 3%Z)
  /\ (forall n, CDSClientConfig.timeout cfg = Some n -> n <> 0%Z ->
      Config.timeout c = n)
  /\ (forall n, CDSClientConfig.retries cfg = Some n -> n <> 0%Z ->
      Config.retries c = n)
  /\ (empty (CDSClientConfig.username cfg) -> Config.username c = [])
  /\ (empty (CDSClientConfig.password cfg) -> Config.password c = [])
  /\ (forall s, CDSClientConfig.username cfg = Some s -> Config.username c = s)
  /\ (forall s, CDSClientConfig.password cfg = Some s -> Config.password c = s)
  /\ Config.timeout c <> 0%Z
  /\ Config.retries c <> 0%Z.
Proof.
  destruct cfg as [b u p t r]. cbn.
  repeat split.
  - intros [->| ->]; reflexivity.
  - intros [->| ->]; reflexivity.
  - intros n -> Hn. cbn. now destruct (Z.eqb_spec n 0).
  - intros n -> Hn. cbn. now destruct (Z.eqb_spec n 0).
  - intros [->| ->]; reflexivity.
  - intros [->| ->]; reflexivity.
  - intros s ->. now destruct s.
  - intros s ->. now destruct s.
  - destruct t as [n|]; cbn; [destruct (Z.eqb_spec n 0)|]; congruence.
  - destruct r as [n|]; cbn; [destruct (Z.eqb_spec n 0)|]; congruence.
Qed.

(** ** Error classification *)

Lemma ToString_string (s : jsstring) : ToString (JStr s) = Returned s.
Proof. reflexivity. Qed.

Lemma js_or_original (error : AxiosError.t) (data : JsValue) :
  js_or (js_or (get_opt data "error") (get_opt data "message"))
        (JStr (AxiosError.message error))
  = original_message error data.
Proof.
  unfold original_message, server_message, js_or.
  destruct (truthy (get_opt data "error")) eqn:E1; cbv iota.
  - now rewrite E1.
  - now destruct (truthy (get_opt data "message")) eqn:E2; cbv iota.
Qed.

Lemma new_CDSError_string (s : jsstring) (sc : option Z) (r : CDSError.raw) :
  new_CDSError (JStr s) sc r = Returned (CDSError.make s sc r).
Proof. reflexivity. Qed.

(** [handleError] on an error that carries a response. *)
Lemma handleError_response (error : AxiosError.t) (resp : AxiosResponse) :
  AxiosError.response error = Some resp ->
  handleError error =
  bindR (friendly_message (status resp) (original_message error (data resp)))
    (fun m => new_CDSError m (Some (status resp)) (CDSError.body (data resp))).
Proof.
  intros H. unfold handleError. rewrite H. cbv zeta.
  now rewrite js_or_original.
Qed.

(** One arm of the [switch]: the status is the constant, or the test fails
    everywhere. *)
Ltac switch_case st k :=
  destruct (Z.eqb_spec st k) as [->|_];
  [cbn; try discriminate; try (intros H; inversion H; reflexivity)|].

Ltac switch_5xx st :=
  destruct (st =? 500)%Z, (st =? 502)%Z, (st =? 503)%Z, (st =? 504)%Z;
  cbn; try discriminate; try (intros H; inversion H; reflexivity).

Lemma friendly_message_fixed (st : Z) (m : JsValue) (t : jsstring) :
  fixed_message st = Some t -> friendly_message st m = Returned (JStr t).
Proof.
  unfold fixed_message, friendly_message, includes. cbn [existsb].
  switch_case st 400%Z. switch_case st 401%Z. switch_case st 403%Z.
  switch_case st 404%Z. switch_case st 429%Z. switch_5xx st.
Qed.

Lemma friendly_message_other (st : Z) (m : JsValue) :
  st <> 400%Z -> fixed_message st = None -> friendly_message st m = Returned m.
Proof.
  unfold fixed_message, friendly_message, includes. cbn [existsb].
  intros Hn. destruct (Z.eqb_spec st 400) as [|_]; [congruence|]. clear Hn.
  switch_case st 401%Z. switch_case st 403%Z.
  switch_case st 404%Z. switch_case st 429%Z. switch_5xx st.
  all: reflexivity.
Qed.

Lemma friendly_message_400 (m : JsValue) :
  friendly_message 400 m =
  bindR (ToString m) (fun s => Returned (JStr (lit "Invalid request: " ++ s))).
Proof. reflexivity. Qed.

(** X22: applied to an error of the library that carries a response,
    [handleError] produces a [CDSError] with the status of the response
    and, for a status of the classification table, the fixed message of
    the table; for 400 the original message with [Invalid request: ]
    before it; for any other status the message the server supplied,
    unchanged. *)
Theorem handleError_table (error : AxiosError.t) (resp : AxiosResponse) :
  AxiosError.response error = Some resp ->
  (forall t, fixed_message (status resp) = Some t ->
     handleError error =
     Returned (CDSError.make t (Some (status resp)) (CDSError.body (data resp))))
  /\ (status resp = 400%Z ->
      forall m, ToString (original_message error (data resp)) = Returned m ->
        handleError error =
        Returned (CDSError.make (lit "Invalid request: " ++ m) (Some 400%Z)
                    (CDSError.body (data resp))))
  /\ (status resp <> 400%Z -> fixed_message (status resp) = None ->
      forall s, server_message (data resp) = Some (JStr s) ->
        handleError error =
        Returned (CDSError.make s (Some (status resp)) (CDSError.body (data resp)))).
Proof.
  intros H. rewrite (handleError_response error resp H). repeat split.
  - intros t Ht. now rewrite (friendly_message_fixed _ _ t Ht).
  - intros E m Hm. rewrite E, friendly_message_400, Hm. reflexivity.
  - intros Hn Hf s Hs. rewrite (friendly_message_other _ _ Hn Hf).
    unfold original_message. now rewrite Hs.
Qed.


(** C9: for an error without a response, [handleError] produces a
    [CDSError] without a status code: with the fixed message [No response
    from server. Check your network connection.] when the request was
    sent, and with the text of the underlying error when it was not. *)
Theorem handleError_no_response (error : AxiosError.t) :
  AxiosError.response error = None ->
  (forall rq, AxiosError.request error = Some rq ->
     handleError error =
     Returned (CDSError.make
                 (lit "No response from server. Check your network connection.")
                 None (CDSError.request_object rq)))
  /\ (AxiosError.request error = None ->
      handleError error =
      Returned (CDSError.make (AxiosError.message error) None CDSError.nothing)).
Proof.
  intros H. unfold handleError. rewrite H. split.
  - intros rq ->. reflexivity.
  - intros ->. reflexivity.
Qed.

(** ** Validation before the network *)

(** C7: for a query that is absent, empty or shorter than two code units,
    [getSuggestions] rejects with a [CDSError] and leaves the log as it
    was: no request is sent. *)
Theorem getSuggestions_short_query (c : CDSClient) (query : option jsstring)
  (log : Log) :
  too_short query ->
  getSuggestions c query log =
  (Thrown (ThrownCDSError
             (CDSError.make (lit "Query must be at least 2 characters long")
                None CDSError.nothing)),
   log).
Proof.
  intros H. unfold getSuggestions.
  assert (E : falsy_string query
              || (List.length (string_value query) <? 2)%nat = true).
  { destruct query as [q|]; [|reflexivity].
    apply orb_true_iff. right. apply Nat.ltb_lt. exact H. }
  rewrite E. reflexivity.
Qed.

(** C8: when either city identifier is absent or empty,
    [calculateDistance] rejects with a [CDSError] and leaves the log as
    it was: no request is sent. *)
Theorem calculateDistance_empty_id (c : CDSClient)
  (city1Id city2Id : option jsstring) (log : Log) :
  empty city1Id \/ empty city2Id ->
  calculateDistance c city1Id city2Id log =
  (Thrown (ThrownCDSError
             (CDSError.make (lit "Both city IDs are required")
                None CDSError.nothing)),
   log).
Proof.
  intros H. unfold calculateDistance.
  assert (E : falsy_string city1Id || falsy_string city2Id = true).
  { apply orb_true_iff. destruct H as [[->| ->]|[->| ->]]; auto. }
  rewrite E. reflexivity.
Qed.


(** ** The retry loop *)

Lemma sent_count_app (l1 l2 : Log) :
  sent_count (l1 ++ l2) = (sent_count l1 + sent_count l2)%nat.
Proof. unfold sent_count. now rewrite filter_app, length_app. Qed.

Lemma sent_count_retry_trace (rq : Request) (made k : nat) :
  sent_count (retry_trace rq made k) = S k.
Proof.
  unfold retry_trace, sent_count. cbn [filter is_sent List.length].
  f_equal. revert made. induction k as [|k IH]; intros made; [reflexivity|].
  cbn [seq flat_map retry_round app filter is_sent List.length].
  now rewrite IH.
Qed.

Lemma settle_config (rq : Request) (w : Wire) (e : AxiosError.t) :
  settle rq w = inr e -> AxiosError.config e = rq.
Proof.
  destruct w as [st b|code m|m]; cbn.
  - destruct ((200 <=? st)%Z && (st <? 300)%Z); [discriminate|].
    intros H. now inversion H.
  - intros H. now inversion H.
  - intros H. now inversion H.
Qed.


(** The loop makes [k] retries, [k] at most the number allowed: the first
    [k] attempts failed in a way [retryCondition] accepts, the outcome is
    that of attempt [k], and the loop stops short of the allowance only
    on a success or on a failure [retryCondition] rejects. *)
Lemma attempts_spec (rq : Request) (left : nat) :
  forall (made : nat) (log : Log),
  exists k : nat,
    (k <= left)%nat
    /\ snd (attempts left made rq log) = log ++ retry_trace rq made k
    /\ fst (attempts left made rq log)
       = settle rq (world (sent_count log + k) rq)
    /\ (forall i, (i < k)%nat ->
          exists e, settle rq (world (sent_count log + i) rq) = inr e
                    /\ retryCondition e = true)
    /\ ((k < left)%nat ->
        match settle rq (world (sent_count log + k) rq) with
        | inl _ => True
        | inr e => retryCondition e = false
        end).
Proof.
  induction left as [|left IH]; intros made log.
  - exists 0%nat. rewrite Nat.add_0_r. cbn [attempts].
    destruct (settle rq (world (sent_count log) rq)) as [resp|e] eqn:E.
    + cbn. repeat split; lia.
    + destruct (retryCondition e); cbn; repeat split; lia.
  - cbn [attempts].
    destruct (settle rq (world (sent_count log) rq)) as [resp|e] eqn:E.
    + exists 0%nat. rewrite Nat.add_0_r, E. cbn.
      repeat split; lia.
    + destruct (retryCondition e) eqn:R.
      * destruct (IH (S made)
                    ((log ++ [Sent rq])
                       ++ [onRetry (S made) e;
                           Slept (exponentialDelay (S made))]))
          as (k & Hk & Hlog & Hout & Hretried & Hstop).
        assert (Ecount :
                  sent_count ((log ++ [Sent rq])
                                ++ [onRetry (S made) e;
                                    Slept (exponentialDelay (S made))])
                  = S (sent_count log)).
        { rewrite !sent_count_app. cbn. lia. }
        rewrite Ecount in *.
        exists (S k). repeat split.
        -- lia.
        -- rewrite Hlog. unfold retry_trace, onRetry.
           rewrite (settle_config _ _ _ E).
           cbn [seq flat_map retry_round app].
           rewrite <- !app_assoc. reflexivity.
        -- rewrite Hout. now rewrite Nat.add_succ_r.
        -- intros [|i] Hi.
           ++ exists e. now rewrite Nat.add_0_r.
           ++ destruct (Hretried i) as (e' & He' & Re'); [lia|].
              exists e'. now rewrite Nat.add_succ_r.
        -- intros Hlt. rewrite Nat.add_succ_r. apply Hstop. lia.
      * exists 0%nat. rewrite Nat.add_0_r, E. cbn.
        repeat split; try lia. intros _. exact R.
Qed.


Lemma settle_resolves (rq : Request) (w : Wire) :
  (exists resp, settle rq w = inl resp) <-> answered_2xx w = true.
Proof.
  destruct w as [st b|code m|m]; cbn.
  - destruct ((200 <=? st)%Z && (st <? 300)%Z);
      (split; [intros (resp & H); (reflexivity || discriminate)
              |intros H; (eauto || discriminate)]).
  - split; [intros (resp & H)|intros H]; discriminate.
  - split; [intros (resp & H)|intros H]; discriminate.
Qed.

(** A call through the instance makes the attempts of [attempts]; when
    the last of them fails after [k] retries, its error has passed
    through the response interceptor once as an error of the library and
    [k] times more as what an inner call threw. *)
Lemma instance_request_spec (rq : Request) (left : nat) :
  forall (made : nat) (log : Log),
  exists k : nat,
    attempts left made rq log
    = (settle rq (world (sent_count log + k) rq), log ++ retry_trace rq made k)
    /\ instance_request left made rq log
       = (match settle rq (world (sent_count log + k) rq) with
          | inl resp => Returned resp
          | inr e => Thrown (Nat.iter k rethrow (intercept e))
          end,
          log ++ retry_trace rq made k).
Proof.
  induction left as [|left IH]; intros made log.
  - exists 0%nat. rewrite Nat.add_0_r. cbn [attempts instance_request].
    destruct (settle rq (world (sent_count log) rq)) as [resp|e].
    + split; reflexivity.
    + destruct (retryCondition e); split; reflexivity.
  - cbn [attempts instance_request].
    destruct (settle rq (world (sent_count log) rq)) as [resp|e] eqn:E.
    + exists 0%nat. rewrite Nat.add_0_r, E. split; reflexivity.
    + destruct (retryCondition e) eqn:R.
      * destruct (IH (S made)
                    ((log ++ [Sent rq])
                       ++ [onRetry (S made) e;
                           Slept (exponentialDelay (S made))]))
          as (k & Hattempts & Hrequest).
        assert (Ecount :
                  sent_count ((log ++ [Sent rq])
                                ++ [onRetry (S made) e;
                                    Slept (exponentialDelay (S made))])
                  = S (sent_count log)).
        { rewrite !sent_count_app. cbn. lia. }
        rewrite Ecount in *.
        assert (Elog :
                  ((log ++ [Sent rq])
                     ++ [onRetry (S made) e; Slept (exponentialDelay (S made))])
                    ++ retry_trace rq (S made) k
                  = log ++ retry_trace rq made (S k)).
        { unfold retry_trace, onRetry. rewrite (settle_config _ _ _ E).
          cbn [seq flat_map retry_round app].
          rewrite <- !app_assoc. reflexivity. }
        exists (S k). rewrite Hattempts, Hrequest, Elog.
        replace (sent_count log + S k)%nat with (S (sent_count log) + k)%nat
          by lia.
        split; [reflexivity|].
        now destruct (settle rq (world (S (sent_count log) + k) rq)).
      * exists 0%nat. rewrite Nat.add_0_r, E. split; reflexivity.
Qed.

(** The number of retries is read off the log. *)
Lemma retry_trace_inj (rq : Request) (log : Log) (made k k' : nat) :
  log ++ retry_trace rq made k = log ++ retry_trace rq made k' -> k = k'.
Proof.
  intros H. apply (f_equal sent_count) in H.
  rewrite !sent_count_app, !sent_count_retry_trace in H. lia.
Qed.

(** ** Health check *)

(** C6: [healthCheck] always returns a boolean and never raises: it sends
    at least one request, and its result is [true] exactly when the last
    dispatch of the call was answered with a 2xx status; a dispatch that
    was not sent, was not answered or was answered with any other status
    makes it [false]. *)
Theorem healthCheck_never_raises (c : CDSClient) (log : Log) :
  exists (b : bool) (log' : Log),
    healthCheck c log = (Returned b, log')
    /\ (sent_count log < sent_count log')%nat
    /\ b = answered_2xx (world (sent_count log' - 1) health_request).
Proof.
  destruct (instance_request_spec health_request
              (Z.to_nat (Config.retries (config c))) 0 log)
    as (k & _ & Hrequest).
  unfold healthCheck, try_catch, bind, client_get, client_request, ret.
  change {| method := GET; url := lit "/health_check"; params := [];
            payload := JUndefined |} with health_request.
  rewrite Hrequest.
  assert (Ecount : (sent_count (log ++ retry_trace health_request 0 k) - 1
                    = sent_count log + k)%nat).
  { rewrite sent_count_app, sent_count_retry_trace. lia. }
  assert (Hlt : (sent_count log
                 < sent_count (log ++ retry_trace health_request 0 k))%nat).
  { rewrite sent_count_app, sent_count_retry_trace. lia. }
  destruct (settle health_request (world (sent_count log + k) health_request))
    as [resp|e] eqn:E.
  - exists true. eexists. split; [reflexivity|]. split; [exact Hlt|].
    rewrite Ecount. symmetry. apply (settle_resolves health_request). eauto.
  - assert (F : answered_2xx (world (sent_count log + k) health_request) = false).
    { destruct (answered_2xx (world (sent_count log + k) health_request)) eqn:A;
        [|reflexivity].
      apply (settle_resolves health_request) in A. destruct A as (resp & A).
      congruence. }
    exists false. eexists.
    split; [reflexivity|]. split; [exact Hlt|]. now rewrite Ecount.
Qed.

(** ** Retry policy *)







(** ** Distance *)

(** What [calculateDistance] returns for a 2xx body: the first truthy one
    of its [distanceKm] field and its [data] field, else the body. *)
Lemma calculateDistance_resolved (c : CDSClient) (city1Id city2Id : jsstring)
  (log log' : Log) (resp : AxiosResponse) :
  city1Id <> [] -> city2Id <> [] ->
  client_request c (distance_request city1Id city2Id) log = (Returned resp, log') ->
  calculateDistance c (Some city1Id) (Some city2Id) log
  = (bindR (get (data resp) "distanceKm")
       (fun distanceKm =>
          or_else distanceKm
            (bindR (get (data resp) "data")
               (fun inner => or_else inner (Returned (data resp))))),
     log').
Proof.
  intros H1 H2 H. unfold calculateDistance.
  destruct city1Id; [congruence|]. destruct city2Id; [congruence|].
  cbn [falsy_string orb string_value]. unfold bind, client_post.
  unfold distance_request in H. rewrite H. reflexivity.
Qed.

(** X2: for non-empty identifiers and a call that resolved,
    [calculateDistance] returns the [distanceKm] field of the body when
    that is truthy, else the [data] field when that is truthy, else the
    body itself; on a body that is [null] it throws a TypeError. *)
Theorem calculateDistance_first_truthy (c : CDSClient)
  (city1Id city2Id : jsstring) (log log' : Log) (resp : AxiosResponse) :
  city1Id <> [] -> city2Id <> [] ->
  client_request c (distance_request city1Id city2Id) log = (Returned resp, log') ->
  let result := fst (calculateDistance c (Some city1Id) (Some city2Id) log) in
  snd (calculateDistance c (Some city1Id) (Some city2Id) log) = log'
  /\ (data resp = JNull -> result = Thrown ThrownTypeError)
  /\ (data resp <> JNull -> data resp <> JUndefined ->
      (truthy (get_opt (data resp) "distanceKm") = true ->
       result = Returned (get_opt (data resp) "distanceKm"))
      /\ (truthy (get_opt (data resp) "distanceKm") = false ->
          truthy (get_opt (data resp) "data") = true ->
          result = Returned (get_opt (data resp) "data"))
      /\ (truthy (get_opt (data resp) "distanceKm") = false ->
          truthy (get_opt (data resp) "data") = false ->
          result = Returned (data resp))).
Proof.
  intros H1 H2 H result. subst result.
  rewrite (calculateDistance_resolved c city1Id city2Id log log' resp H1 H2 H).
  cbn [fst snd]. split; [reflexivity|]. split.
  - intros ->. reflexivity.
  - intros Hn Hu. unfold get_opt, or_else.
    destruct (data resp) as [| |b|x|s|items|props]; try congruence;
      cbn [get bindR truthy].
    1-4: repeat split; intros; try discriminate; reflexivity.
    destruct (own_property props (lit "distanceKm")) as [v|];
      destruct (own_property props (lit "data")) as [w|];
      cbn [bindR truthy]; repeat split; intros Ha; try intros Hb;
      rewrite ?Ha, ?Hb; try reflexivity; try discriminate.
Qed.

(** ** Suggestions and version *)

(** The request of [getSuggestions]. *)
Lemma getSuggestions_resolved (c : CDSClient) (query : jsstring)
  (log log' : Log) (resp : AxiosResponse) :
  (2 <= List.length query)%nat ->
  client_request c
    {| method := GET; url := lit "/suggestions";
       params := [(lit "q", query)]; payload := JUndefined |} log
  = (Returned resp, log') ->
  getSuggestions c (Some query) log
  = (bindR (get (data resp) "data")
       (fun inner => or_else inner (Returned (data resp))),
     log').
Proof.
  intros Hq H. unfold getSuggestions.
  destruct query as [|a [|b q]]; cbn in Hq; try lia.
  cbn [falsy_string orb string_value List.length Nat.ltb Nat.leb].
  unfold bind, client_get. rewrite H. reflexivity.
Qed.

(** X3: for a query of two code units or more and a call that resolved,
    [getSuggestions] returns a bare list as it is and unwraps a list that
    an object holds in its [data] field. *)
Theorem getSuggestions_envelope (c : CDSClient) (query : jsstring)
  (log log' : Log) (resp : AxiosResponse) (items : list JsValue) :
  (2 <= List.length query)%nat ->
  client_request c
    {| method := GET; url := lit "/suggestions";
       params := [(lit "q", query)]; payload := JUndefined |} log
  = (Returned resp, log') ->
  (data resp = JArr items ->
   getSuggestions c (Some query) log = (Returned (JArr items), log'))
  /\ (forall props, data resp = JObj props ->
      own_property props (lit "data") = Some (JArr items) ->
      getSuggestions c (Some query) log = (Returned (JArr items), log')).
Proof.
  intros Hq H. rewrite (getSuggestions_resolved c query log log' resp Hq H).
  split.
  - intros ->. reflexivity.
  - intros props -> Hp. cbn [get]. rewrite Hp. reflexivity.
Qed.

(** ** Credentials *)

(** X4: the constructor prepares the [Authorization] header from
    [username:password] exactly when both are given and non-empty. *)
Theorem constructor_credentials (cfg : CDSClientConfig.t) :
  (forall u p,
     CDSClientConfig.username cfg = Some u ->
     CDSClientConfig.password cfg = Some p ->
     u <> [] -> p <> [] ->
     credentials (constructor cfg) = Some (u ++ lit ":" ++ p))
  /\ (empty (CDSClientConfig.username cfg)
      \/ empty (CDSClientConfig.password cfg) ->
      credentials (constructor cfg) = None).
Proof.
  destruct cfg as [b u p t r]. cbn. split.
  - intros u' p' -> -> Hu Hp.
    destruct u'; [congruence|]. destruct p'; [congruence|]. reflexivity.
  - intros [[->| ->]|[->| ->]]; cbn; try reflexivity;
      destruct u as [[|? ?]|]; reflexivity.
Qed.

(** * Part II, continued: the rest of the code *)

(** ** More on URL normalisation *)

(** X5: normalising the base URL of a plainly spelled host a second time
    changes nothing. *)
Theorem normalizeURL_stable (sch : Scheme) (www : bool) (host : jsstring)
  (trailing : bool) :
  plain_host host = true ->
  normalizeURL (normalizeURL (spelled sch www host trailing))
  = normalizeURL (spelled sch www host trailing).
Proof.
  intros H. rewrite (normalizeURL_spelled sch www host trailing H).
  assert (E : lit "https://" ++ host = spelled Https false host false).
  { unfold spelled. cbn [scheme_text www_text slash_text app].
    now rewrite app_nil_r. }
  rewrite E at 1. rewrite (normalizeURL_spelled Https false host false H).
  reflexivity.
Qed.

Lemma replace_final_slash_cases (s : jsstring) :
  replace_final_slash s = s \/ s = replace_final_slash s ++ [slash].
Proof.
  induction s as [|c t IH]; [now left|].
  destruct t as [|c' t'].
  - cbn. destruct (N.eqb_spec c slash) as [->|_]; [now right|now left].
  - change (replace_final_slash (c :: c' :: t'))
      with (c :: replace_final_slash (c' :: t')).
    destruct IH as [IH|IH]; [left|right]; cbn [app]; congruence.
Qed.

Lemma startsWith_app_l (a b p : jsstring) :
  startsWith a p = true -> startsWith (a ++ b) p = true.
Proof.
  unfold startsWith. destruct (strip_prefix p a) as [r|] eqn:E; [|discriminate].
  intros _. apply strip_prefix_Some in E. subst a.
  now rewrite <- app_assoc, strip_prefix_app.
Qed.

(** What the first replacement removed. *)
Lemma replace_scheme_www_removed (url : jsstring) :
  exists sch www,
    url = scheme_text sch ++ www_text www ++ replace_scheme_www url
    /\ (sch = NoScheme ->
        strip_prefix (lit "https://") url = None
        /\ strip_prefix (lit "http://") url = None)
    /\ (www = false ->
        strip_prefix (lit "www.") (replace_scheme_www url) = None).
Proof.
  unfold replace_scheme_www.
  destruct (strip_prefix (lit "https://") url) as [r|] eqn:E1.
  - apply strip_prefix_Some in E1. subst url.
    destruct (strip_prefix (lit "www.") r) as [r'|] eqn:E3.
    + apply strip_prefix_Some in E3. subst r.
      exists Https, true.
      split; [reflexivity|split; [discriminate|discriminate]].
    + exists Https, false.
      split; [reflexivity|split; [discriminate|intros _; exact E3]].
  - destruct (strip_prefix (lit "http://") url) as [r|] eqn:E2.
    + apply strip_prefix_Some in E2. subst url.
      destruct (strip_prefix (lit "www.") r) as [r'|] eqn:E3.
      * apply strip_prefix_Some in E3. subst r.
        exists Http, true.
        split; [reflexivity|split; [discriminate|discriminate]].
      * exists Http, false.
        split; [reflexivity|split; [discriminate|intros _; exact E3]].
    + destruct (strip_prefix (lit "www.") url) as [r'|] eqn:E3.
      * apply strip_prefix_Some in E3.
        exists NoScheme, true.
        split; [exact E3|split; [intros _; split; reflexivity|discriminate]].
      * exists NoScheme, false.
        split; [reflexivity
               |split; [intros _; split; reflexivity|intros _; exact E3]].
Qed.

(** X19: an explicit [http://] is upgraded unless it was written behind
    another prefix: when the normalised base URL starts with [http://],
    the input had [http://] right after a leading scheme, a leading
    [www.] or both. *)
Theorem normalizeURL_http_only_behind_prefix (url : jsstring) :
  startsWith (normalizeURL url) (lit "http://") = true ->
  exists sch www rest,
    (sch <> NoScheme \/ www = true)
    /\ url = scheme_text sch ++ www_text www ++ lit "http://" ++ rest.
Proof.
  unfold normalizeURL. cbv zeta.
  set (n := replace_final_slash (replace_scheme_www url)).
  intros H.
  assert (Hn : startsWith n (lit "http://") = true).
  { destruct (startsWith n (lit "http://")) eqn:E1; [reflexivity|].
    destruct (startsWith n (lit "https://")) eqn:E2; cbn [negb andb] in H.
    - congruence.
    - discriminate H. }
  assert (Hs : startsWith (replace_scheme_www url) (lit "http://") = true).
  { destruct (replace_final_slash_cases (replace_scheme_www url)) as [E|E].
    - now rewrite <- E.
    - rewrite E. now apply startsWith_app_l. }
  unfold startsWith in Hs.
  destruct (strip_prefix (lit "http://") (replace_scheme_www url)) as [rest|] eqn:E;
    [|discriminate].
  apply strip_prefix_Some in E.
  destruct (replace_scheme_www_removed url) as (sch & www & Hurl & Hnone & _).
  exists sch, www, rest. rewrite E in Hurl. split; [|exact Hurl].
  destruct sch; try (left; discriminate).
  destruct www; [now right|].
  destruct (Hnone eq_refl) as [_ N]. rewrite Hurl in N.
  cbn [scheme_text www_text app] in N. now rewrite strip_prefix_app in N.
Qed.

Lemma replace_final_slash_last (l : jsstring) (c : code_unit) :
  replace_final_slash (l ++ [c]) = if N.eqb c slash then l else l ++ [c].
Proof.
  destruct (N.eqb_spec c slash) as [->|N].
  - apply replace_final_slash_snoc.
  - apply replace_final_slash_id. rewrite endsWith_snoc.
    apply N.eqb_neq. congruence.
Qed.

(** A final slash after the second replacement was the first of two. *)
Lemma replace_final_slash_slash (s : jsstring) :
  endsWith (replace_final_slash s) [slash] = true ->
  exists m, s = m ++ [slash; slash].
Proof.
  destruct s as [|c l _] using rev_ind; [discriminate|].
  rewrite replace_final_slash_last.
  destruct (N.eqb_spec c slash) as [->|N].
  - destruct l as [|d m _] using rev_ind; [discriminate|].
    rewrite endsWith_snoc. intros H. apply N.eqb_eq in H. subst d.
    exists m. now rewrite <- app_assoc.
  - rewrite endsWith_snoc. intros H. apply N.eqb_eq in H. congruence.
Qed.

Lemma endsWith_two_slashes (x : jsstring) :
  endsWith (x ++ [slash; slash]) (lit "//") = true.
Proof. unfold endsWith. rewrite rev_app_distr. reflexivity. Qed.

(** X20: the normalised base URL ends with a slash only when the input
    ended with two slashes, or held nothing but a scheme, a [www.] and a
    slash, each of them optional. *)
Theorem normalizeURL_slash_only_when_doubled (url : jsstring) :
  endsWith (normalizeURL url) (lit "/") = true ->
  endsWith url (lit "//") = true
  \/ exists sch www trailing,
       url = scheme_text sch ++ www_text www ++ slash_text trailing.
Proof.
  destruct (replace_scheme_www_removed url) as (sch & www & Hurl & _).
  unfold normalizeURL. cbv zeta. change (lit "/") with [slash].
  remember (replace_scheme_www url) as s eqn:Es in *. clear Es.
  destruct (replace_final_slash s) as [|c n] eqn:En.
  - intros _. right. exists sch, www.
    destruct (replace_final_slash_cases s) as [E|E]; rewrite En in E.
    + exists false. rewrite Hurl, <- E. reflexivity.
    + exists true. rewrite Hurl, E. reflexivity.
  - intros H. left.
    assert (Hn : endsWith (replace_final_slash s) [slash] = true).
    { rewrite En.
      destruct (negb (startsWith (c :: n) (lit "http://"))
                && negb (startsWith (c :: n) (lit "https://"))).
      - rewrite endsWith_app in H; [exact H|discriminate].
      - exact H. }
    destruct (replace_final_slash_slash s Hn) as (m & Hm).
    rewrite Hurl, Hm, !app_assoc. apply endsWith_two_slashes.
Qed.

Lemma startsWith_app_r (s p q : jsstring) :
  startsWith s (p ++ q) = true -> startsWith s p = true.
Proof.
  unfold startsWith. destruct (strip_prefix (p ++ q) s) as [r|] eqn:E;
    [|discriminate].
  intros _. apply strip_prefix_Some in E. subst s.
  now rewrite <- app_assoc, strip_prefix_app.
Qed.

Lemma startsWith_replace_final_slash (s p : jsstring) :
  startsWith (replace_final_slash s) p = true -> startsWith s p = true.
Proof.
  destruct (replace_final_slash_cases s) as [E|E].
  - now rewrite E.
  - intros H. rewrite E. now apply startsWith_app_l.
Qed.

Lemma www_after_scheme_replace_final_slash (s : jsstring) :
  www_after_scheme (replace_final_slash s) = true -> www_after_scheme s = true.
Proof.
  unfold www_after_scheme. intros H. apply orb_true_iff in H.
  apply orb_true_iff.
  destruct H as [H|H]; [left|right]; now apply startsWith_replace_final_slash.
Qed.

(** X21: the normalised base URL has a [www.] right after its scheme
    only when the input had a second [www.] behind the first, or a
    second scheme with a [www.] behind its first scheme or [www.]. *)
Theorem normalizeURL_www_only_when_doubled (url : jsstring) :
  www_after_scheme (normalizeURL url) = true ->
  exists sch www rest,
    url = scheme_text sch ++ www_text www ++ rest
    /\ ((www = true /\ startsWith rest (lit "www.") = true)
        \/ ((sch <> NoScheme \/ www = true) /\ www_after_scheme rest = true)).
Proof.
  destruct (replace_scheme_www_removed url) as (sch & www & Hurl & Hscheme & Hwww).
  unfold normalizeURL. cbv zeta.
  remember (replace_scheme_www url) as s eqn:Es in *. clear Es.
  intros H. exists sch, www, s. split; [exact Hurl|].
  destruct (negb (startsWith (replace_final_slash s) (lit "http://"))
            && negb (startsWith (replace_final_slash s) (lit "https://"))) eqn:G.
  - left.
    assert (Hn : startsWith (replace_final_slash s) (lit "www.") = true).
    { unfold www_after_scheme in H. apply orb_true_iff in H.
      destruct H as [H|H]; [|discriminate H].
      change (lit "https://www.") with (lit "https://" ++ lit "www.") in H.
      unfold startsWith in H |- *.
      destruct (strip_prefix (lit "https://" ++ lit "www.")
                  (lit "https://" ++ replace_final_slash s)) as [r|] eqn:E;
        [|discriminate].
      apply strip_prefix_Some in E. rewrite <- app_assoc in E.
      apply app_inv_head in E. rewrite E. now rewrite strip_prefix_app. }
    apply startsWith_replace_final_slash in Hn. split; [|exact Hn].
    destruct www; [reflexivity|].
    unfold startsWith in Hn. now rewrite (Hwww eq_refl) in Hn.
  - right. apply www_after_scheme_replace_final_slash in H. split; [|exact H].
    destruct sch; try (left; discriminate).
    destruct www; [now right|].
    destruct (Hscheme eq_refl) as [N1 N2].
    cbn [scheme_text www_text app] in Hurl. rewrite <- Hurl in H.
    unfold www_after_scheme in H. apply orb_true_iff in H.
    destruct H as [H|H].
    + change (lit "https://www.") with (lit "https://" ++ lit "www.") in H.
      apply startsWith_app_r in H. unfold startsWith in H.
      now rewrite N1 in H.
    + change (lit "http://www.") with (lit "http://" ++ lit "www.") in H.
      apply startsWith_app_r in H. unfold startsWith in H.
      now rewrite N2 in H.
Qed.

(** ** More on error classification *)

Lemma join_throws (parts : list (Result jsstring)) (x : Exception) :
  Forall (fun p => forall y, p = Thrown y -> y = ThrownTypeError) parts ->
  join parts = Thrown x -> x = ThrownTypeError.
Proof.
  induction 1 as [|p rest Hp Hrest IH]; cbn [join].
  - discriminate.
  - destruct rest as [|q rest'].
    + apply Hp.
    + destruct p as [a|y]; cbn [bindR].
      * destruct (join (q :: rest')) as [b|z]; cbn [bindR];
          [discriminate|]. intros E. apply IH. congruence.
      * intros E. inversion E; subst. now apply Hp.
Qed.

(** The one exception [ToString] throws is a TypeError. *)
Lemma ToString_throws : forall (v : JsValue) (x : Exception),
  ToString v = Thrown x -> x = ThrownTypeError.
Proof.
  fix IH 1. intros [| |b|n|s|items|props] x; cbn [ToString];
    try discriminate.
  - apply join_throws.
    induction items as [|i items IHitems]; constructor; [|exact IHitems].
    intros y Hy. apply (IH i y). destruct i; try discriminate; exact Hy.
  - destruct (own_property props (lit "toString")); [|discriminate].
    congruence.
Qed.

Lemma new_CDSError_throws (m : JsValue) (sc : option Z) (r : CDSError.raw)
  (x : Exception) :
  new_CDSError m sc r = Thrown x ->
  x = ThrownTypeError /\ forall s, m <> JStr s.
Proof.
  unfold new_CDSError. intros H. split.
  - destruct m; try discriminate;
      (destruct (ToString _) eqn:E in H; cbn [bindR] in H; [discriminate|];
       inversion H; subst; eapply ToString_throws; exact E).
  - intros s ->. discriminate.
Qed.

(** X6: [handleError] throws nothing but a TypeError, and throws only for
    an error that carries a response whose status has no fixed message
    and whose message is not a string; for every other error it returns
    a [CDSError]. *)
Theorem handleError_throws_only_TypeError (error : AxiosError.t)
  (x : Exception) :
  handleError error = Thrown x ->
  x = ThrownTypeError
  /\ exists resp,
       AxiosError.response error = Some resp
       /\ fixed_message (status resp) = None
       /\ forall s, original_message error (data resp) <> JStr s.
Proof.
  destruct (AxiosError.response error) as [resp|] eqn:R.
  - rewrite (handleError_response error resp R).
    destruct (fixed_message (status resp)) as [t|] eqn:F.
    + rewrite (friendly_message_fixed _ _ t F). discriminate.
    + intros H.
      assert (G : x = ThrownTypeError
                  /\ forall s, original_message error (data resp) <> JStr s).
      { destruct (Z.eq_dec (status resp) 400) as [E4|N4].
        - rewrite E4, friendly_message_400 in H.
          destruct (ToString (original_message error (data resp))) as [m|y] eqn:T;
            cbn [bindR] in H; [discriminate|].
          inversion H; subst y. split; [eapply ToString_throws; exact T|].
          intros s Hs. rewrite Hs in T. discriminate.
        - rewrite (friendly_message_other _ _ N4 F) in H. cbn [bindR] in H.
          now apply new_CDSError_throws in H. }
      destruct G as [G1 G2]. split; [exact G1|]. exists resp. auto.
  - unfold handleError. rewrite R.
    destruct (AxiosError.request error); discriminate.
Qed.

Lemma new_CDSError_fields (m : JsValue) (sc : option Z) (r : CDSError.raw)
  (e : CDSError.t) :
  new_CDSError m sc r = Returned e ->
  CDSError.statusCode e = sc /\ CDSError.response e = r.
Proof.
  unfold new_CDSError. intros H.
  destruct m; try (inversion H; subst; now split);
    (destruct (ToString _) in H; cbn [bindR] in H; [|discriminate];
     inversion H; subst; now split).
Qed.

(** X7: a [CDSError] that [handleError] returns has a status code exactly
    when the error carried a response, and then it is the status of the
    response; its third field is the body of the response, or else the
    request that was sent, or else nothing. *)
Theorem handleError_statusCode (error : AxiosError.t) (e : CDSError.t) :
  handleError error = Returned e ->
  CDSError.statusCode e = option_map status (AxiosError.response error)
  /\ CDSError.response e
     = match AxiosError.response error, AxiosError.request error with
       | Some resp, _ => CDSError.body (data resp)
       | None, Some rq => CDSError.request_object rq
       | None, None => CDSError.nothing
       end.
Proof.
  destruct (AxiosError.response error) as [resp|] eqn:R.
  - rewrite (handleError_response error resp R).
    destruct (friendly_message (status resp) (original_message error (data resp)))
      as [m|y]; cbn [bindR]; [|discriminate].
    apply new_CDSError_fields.
  - unfold handleError. rewrite R.
    destruct (AxiosError.request error); apply new_CDSError_fields.
Qed.

(** ** Retry and classification together *)

(** X8: the fixed messages that end in [Please try again later.] are
    those of the retryable statuses: an error that gets one of them
    satisfies [retryCondition] whatever the retry library and the method
    of the request say, and an error with another fixed message
    satisfies it only when the library's predicate does. *)
Theorem try_again_is_retried (e : AxiosError.t) (resp : AxiosResponse)
  (t : jsstring) :
  AxiosError.response e = Some resp ->
  fixed_message (status resp) = Some t ->
  includes retryableStatuses (status resp)
  = endsWith t (lit "Please try again later.")
  /\ (endsWith t (lit "Please try again later.") = true ->
      retryCondition e = true)
  /\ (endsWith t (lit "Please try again later.") = false ->
      retryCondition e = isNetworkOrIdempotentRequestError e).
Proof.
  intros R F.
  assert (E : includes retryableStatuses (status resp)
              = endsWith t (lit "Please try again later.")).
  { revert F. generalize (status resp) as st. intros st.
    unfold fixed_message, includes, retryableStatuses. cbn [existsb].
    switch_case st 401%Z. switch_case st 403%Z.
    switch_case st 404%Z. switch_case st 429%Z.
    destruct (Z.eqb_spec st 408) as [->|_]; [discriminate|].
    destruct (st =? 500)%Z, (st =? 502)%Z, (st =? 503)%Z, (st =? 504)%Z;
      cbn; try discriminate; intros H; inversion H; reflexivity. }
  split; [exact E|]. unfold retryCondition. rewrite R, E.
  split; intros ->; now destruct (isNetworkOrIdempotentRequestError e).
Qed.

(** ** Validation is exact *)

(** A call through the client puts at least one request on the wire. *)
Lemma client_request_sends (c : CDSClient) (rq : Request) (log : Log) :
  (sent_count log < sent_count (snd (client_request c rq log)))%nat.
Proof.
  destruct (instance_request_spec rq (Z.to_nat (Config.retries (config c))) 0 log)
    as (k & _ & Hrequest).
  unfold client_request. rewrite Hrequest. cbn [snd].
  rewrite sent_count_app, sent_count_retry_trace. lia.
Qed.

Lemma bind_lift_log {A B} (m : M A) (f : A -> Result B) (log : Log) :
  snd (bind m (fun a => lift (f a)) log) = snd (m log).
Proof. unfold bind, lift. now destruct (m log) as [[a|x] log']. Qed.

(** X9: [getSuggestions] leaves the wire alone exactly when the query is
    absent or shorter than two code units; any other query, blank ones
    included, is sent. *)
Theorem getSuggestions_sends_iff (c : CDSClient) (query : option jsstring)
  (log : Log) :
  snd (getSuggestions c query log) = log <-> too_short query.
Proof.
  unfold getSuggestions.
  destruct (falsy_string query
            || (List.length (string_value query) <? 2)%nat) eqn:G.
  - split; [intros _|reflexivity].
    destruct query as [q|]; [|exact I]. cbn [too_short].
    apply orb_true_iff in G. destruct G as [G|G].
    + destruct q; [cbn; lia|discriminate].
    + now apply Nat.ltb_lt.
  - rewrite bind_lift_log. unfold client_get. split.
    + intros E.
      pose proof (client_request_sends c
                    {| method := GET; url := lit "/suggestions";
                       params := [(lit "q", string_value query)];
                       payload := JUndefined |} log) as S.
      rewrite E in S. lia.
    + intros T. apply orb_false_iff in G. destruct G as [G1 G2].
      destruct query as [q|]; [|discriminate].
      cbn [too_short string_value] in *. apply Nat.ltb_ge in G2. lia.
Qed.

(** X10: [calculateDistance] leaves the wire alone exactly when one of
    the identifiers is absent or empty. *)
Theorem calculateDistance_sends_iff (c : CDSClient)
  (city1Id city2Id : option jsstring) (log : Log) :
  snd (calculateDistance c city1Id city2Id log) = log
  <-> empty city1Id \/ empty city2Id.
Proof.
  assert (F : forall s, falsy_string s = true <-> empty s).
  { intros s. unfold empty. destruct s as [[|a s]|]; cbn; split; intros H;
      auto; try discriminate; destruct H; discriminate. }
  unfold calculateDistance.
  destruct (falsy_string city1Id || falsy_string city2Id) eqn:G.
  - split; [intros _|reflexivity].
    apply orb_true_iff in G. destruct G as [G|G]; apply F in G; auto.
  - rewrite bind_lift_log. unfold client_post. split.
    + intros E.
      pose proof (client_request_sends c
                    {| method := POST; url := lit "/distance"; params := [];
                       payload := JObj [(lit "City1", JStr (string_value city1Id));
                                        (lit "City2", JStr (string_value city2Id))] |}
                    log) as S.
      rewrite E in S. lia.
    + apply orb_false_iff in G. destruct G as [G1 G2].
      intros [H|H]; apply F in H; congruence.
Qed.

(** ** What the operations resolve with *)

Lemma or_else_value (a : JsValue) (b : Result JsValue) (v : JsValue) :
  or_else a b = Returned v ->
  (truthy a = true /\ v = a) \/ (truthy a = false /\ b = Returned v).
Proof.
  unfold or_else. destruct (truthy a); intros H.
  - left. now inversion H.
  - right. now split.
Qed.

Lemma get_returns (d : JsValue) (name : string) (v : JsValue) :
  get d name = Returned v -> d <> JNull /\ d <> JUndefined.
Proof. destruct d; cbn; intros H; split; discriminate. Qed.

(** The first truthy one of two fields, or else the body, is never
    [null] or [undefined]. *)
Lemma first_truthy_defined (d v : JsValue) :
  bindR (get d "distanceKm")
    (fun distanceKm =>
       or_else distanceKm
         (bindR (get d "data") (fun inner => or_else inner (Returned d))))
  = Returned v ->
  v <> JNull /\ v <> JUndefined.
Proof.
  destruct (get d "distanceKm") as [a|x] eqn:Ga; cbn [bindR]; [|discriminate].
  pose proof (get_returns _ _ _ Ga) as [Hn Hu].
  intros H. apply or_else_value in H. destruct H as [[T ->]|[_ H]].
  - split; intros ->; discriminate.
  - destruct (get d "data") as [b|x] eqn:Gb; cbn [bindR] in H; [|discriminate].
    apply or_else_value in H. destruct H as [[T ->]|[_ H]].
    + split; intros ->; discriminate.
    + inversion H; subst v. now split.
Qed.

Lemma calculateDistance_value (c : CDSClient)
  (city1Id city2Id : option jsstring) (log : Log) (v : JsValue) :
  fst (calculateDistance c city1Id city2Id log) = Returned v ->
  v <> JNull /\ v <> JUndefined.
Proof.
  unfold calculateDistance.
  destruct (falsy_string city1Id || falsy_string city2Id); [discriminate|].
  unfold bind, lift.
  destruct (client_post c "/distance" _ log) as [[resp|x] log'];
    cbn [fst]; [|discriminate].
  apply first_truthy_defined.
Qed.

(** X11: [calculateDistance] never resolves with [null] or [undefined]:
    what it resolves with is a truthy field of the body or the body
    itself, which has been read from. *)
Theorem calculateDistance_never_null (c : CDSClient)
  (city1Id city2Id : option jsstring) (log : Log) :
  fst (calculateDistance c city1Id city2Id log) <> Returned JNull
  /\ fst (calculateDistance c city1Id city2Id log) <> Returned JUndefined.
Proof.
  split; intros H; apply calculateDistance_value in H; destruct H; congruence.
Qed.

(** X12: for a query of two code units or more and a call that resolved,
    [getSuggestions] rejects with a TypeError when the body is [null] or
    [undefined], and otherwise returns the [data] field of the body when
    that is truthy and the body itself when it is not. *)
Theorem getSuggestions_body (c : CDSClient) (query : jsstring)
  (log log' : Log) (resp : AxiosResponse) :
  (2 <= List.length query)%nat ->
  client_request c (suggestions_request query) log = (Returned resp, log') ->
  (data resp = JNull \/ data resp = JUndefined ->
   fst (getSuggestions c (Some query) log) = Thrown ThrownTypeError)
  /\ (data resp <> JNull -> data resp <> JUndefined ->
      fst (getSuggestions c (Some query) log)
      = Returned (if truthy (get_opt (data resp) "data")
                  then get_opt (data resp) "data" else data resp)).
Proof.
  intros Hq H. unfold suggestions_request in H.
  rewrite (getSuggestions_resolved c query log log' resp Hq H). cbn [fst].
  split.
  - intros [->| ->]; reflexivity.
  - intros Hn Hu. unfold get_opt, or_else.
    destruct (data resp) as [| |b|x|s|items|props]; try congruence;
      cbn [get bindR truthy]; try reflexivity.
    destruct (own_property props (lit "data")) as [v|]; cbn [bindR truthy];
      [now destruct (truthy v)|reflexivity].
Qed.

(** X13: [getVersion] does not validate and does not unwrap: it resolves
    with the body of the last answer of the call as it is when that
    answer has a 2xx status, and rejects in every other case. *)
Theorem getVersion_raw_body (c : CDSClient) (log : Log) :
  exists k : nat,
    (k <= Z.to_nat (Config.retries (config c)))%nat
    /\ snd (getVersion c log) = log ++ retry_trace version_request 0 k
    /\ match world (sent_count log + k) version_request with
       | Answered st b =>
           if (200 <=? st)%Z && (st <? 300)%Z
           then fst (getVersion c log) = Returned b
           else exists x, fst (getVersion c log) = Thrown x
       | _ => exists x, fst (getVersion c log) = Thrown x
       end.
Proof.
  destruct (attempts_spec version_request
              (Z.to_nat (Config.retries (config c))) 0 log)
    as (k & Hk & Hlog & _).
  destruct (instance_request_spec version_request
              (Z.to_nat (Config.retries (config c))) 0 log)
    as (k' & Hattempts & Hrequest).
  rewrite Hattempts in Hlog. cbn [snd] in Hlog.
  apply retry_trace_inj in Hlog. subst k'.
  exists k. split; [exact Hk|].
  unfold getVersion, bind, client_get, client_request, ret.
  change {| method := GET; url := lit "/version"; params := [];
            payload := JUndefined |} with version_request.
  rewrite Hrequest.
  destruct (world (sent_count log + k) version_request) as [st b|code m|m];
    cbn [settle].
  - destruct ((200 <=? st)%Z && (st <? 300)%Z); cbn [fst snd].
    + split; reflexivity.
    + split; eauto.
  - cbn [fst snd]. split; eauto.
  - cbn [fst snd]. split; eauto.
Qed.

(** ** The hooks *)

Lemma getSuggestions_sends (c : CDSClient) (query : jsstring) (log : Log) :
  (2 <= List.length query)%nat ->
  (sent_count log < sent_count (snd (getSuggestions c (Some query) log)))%nat.
Proof.
  intros Hq. unfold getSuggestions.
  destruct query as [|a [|b q]]; cbn in Hq; try lia.
  cbn [falsy_string orb string_value List.length Nat.ltb Nat.leb].
  rewrite bind_lift_log. apply client_request_sends.
Qed.

Lemma search_log (options : UseCDSOptions) (query : jsstring) (log : Log) :
  (2 <= List.length query)%nat ->
  log_after (search options query log)
  = snd (getSuggestions (client options) (Some query) log).
Proof.
  intros Hq. unfold search.
  destruct (Nat.ltb_spec (List.length query) 2) as [Hlt|_]; [lia|].
  now destruct (getSuggestions (client options) (Some query) log) as [[v|x] log'].
Qed.

(** X14: [search] goes to the network exactly when the query has two
    code units or more.  A shorter query only empties the suggestions:
    the loading flag and an earlier error stay as they were, and
    [onError] is not called. *)
Theorem search_short_query (options : UseCDSOptions) (query : jsstring)
  (st : useCitySuggestions.state) (log : Log) :
  ((List.length query < 2)%nat ->
   log_after (search options query log) = log
   /\ reported (search options query log) = []
   /\ useCitySuggestions.after st (updates (search options query log))
      = useCitySuggestions.make (JArr []) (useCitySuggestions.loading st)
          (useCitySuggestions.error st))
  /\ ((2 <= List.length query)%nat ->
      (sent_count log < sent_count (log_after (search options query log)))%nat).
Proof.
  split.
  - intros Hq. unfold search.
    destruct (Nat.ltb_spec (List.length query) 2) as [_|Hge]; [|lia].
    now destruct st.
  - intros Hq. rewrite (search_log options query log Hq).
    now apply getSuggestions_sends.
Qed.

(** X15: for a query of two code units or more, [search] ends with the
    loading flag off whatever happened.  When the client resolved, the
    suggestions are its result and the error is cleared; when it
    rejected, the error is what it threw, [onError] (if given) was called
    once with it, and the suggestions shown before stay in place. *)
Theorem search_settles (options : UseCDSOptions) (query : jsstring)
  (st : useCitySuggestions.state) (log : Log) :
  (2 <= List.length query)%nat ->
  let r := search options query log in
  let st' := useCitySuggestions.after st (updates r) in
  useCitySuggestions.loading st' = false
  /\ match fst (getSuggestions (client options) (Some query) log) with
     | Returned v =>
         useCitySuggestions.suggestions st' = v
         /\ useCitySuggestions.error st' = None
         /\ reported r = []
     | Thrown x =>
         useCitySuggestions.suggestions st' = useCitySuggestions.suggestions st
         /\ useCitySuggestions.error st' = Some x
         /\ reported r = report options x
     end.
Proof.
  intros Hq r st'. subst st' r. unfold search.
  destruct (Nat.ltb_spec (List.length query) 2) as [Hlt|_]; [lia|].
  destruct (getSuggestions (client options) (Some query) log) as [[v|x] log'];
    cbn; repeat split.
Qed.

(** X16: [calculate] ends with the loading flag off, and with exactly one
    of distance and error set: when the client resolved, the distance is
    its result (never [null]) and the error is cleared; when it rejected,
    the distance is [null], the error is what it threw and [onError] (if
    given) was called once with it.  A distance shown before never stays
    next to an error. *)
Theorem calculate_settles (options : UseCDSOptions) (city1Id city2Id : jsstring)
  (st : useDistanceCalculation.state) (log : Log) :
  let r := calculate options city1Id city2Id log in
  let st' := useDistanceCalculation.after st (updates r) in
  useDistanceCalculation.loading st' = false
  /\ (useDistanceCalculation.error st' = None
      <-> useDistanceCalculation.distance st' <> JNull)
  /\ match fst (calculateDistance (client options)
                  (Some city1Id) (Some city2Id) log) with
     | Returned v =>
         useDistanceCalculation.distance st' = v
         /\ useDistanceCalculation.error st' = None
         /\ reported r = []
     | Thrown x =>
         useDistanceCalculation.distance st' = JNull
         /\ useDistanceCalculation.error st' = Some x
         /\ reported r = report options x
     end.
Proof.
  intros r st'. subst st' r. unfold calculate.
  pose proof (calculateDistance_value (client options)
                (Some city1Id) (Some city2Id) log) as V.
  destruct (calculateDistance (client options) (Some city1Id) (Some city2Id) log)
    as [[v|x] log']; cbn [fst] in *; cbn.
  - destruct (V v eq_refl) as [Hn _]. repeat split; congruence.
  - repeat split; congruence.
Qed.

(** X17: with an empty identifier [calculate] does not reach the network:
    it ends with the loading flag off, no distance and the validation
    error of the client as the error, reported to [onError] if given. *)
Theorem calculate_empty_id (options : UseCDSOptions) (city1Id city2Id : jsstring)
  (st : useDistanceCalculation.state) (log : Log) :
  city1Id = [] \/ city2Id = [] ->
  let invalid :=
    ThrownCDSError (CDSError.make (lit "Both city IDs are required")
                      None CDSError.nothing) in
  let r := calculate options city1Id city2Id log in
  log_after r = log
  /\ reported r = report options invalid
  /\ useDistanceCalculation.after st (updates r)
     = useDistanceCalculation.make JNull false (Some invalid).
Proof.
  intros H invalid r. subst r invalid. unfold calculate, calculateDistance.
  assert (G : falsy_string (Some city1Id) || falsy_string (Some city2Id) = true).
  { destruct H as [->| ->]; [reflexivity|]. apply orb_true_r. }
  rewrite G. cbn. repeat split.
Qed.

(** ** The page *)

(** X18: the search button always leaves a text in the result element:
    the fixed error text when the request failed, the status was not
    2xx, the body was not JSON or could not be turned into text, and
    otherwise the sentence with both city names and the body as text.
    The two texts differ, so the page tells a failure from a distance. *)
Theorem searchBtn_click_text (city1 city2 : jsstring) (outcome : FetchOutcome) :
  (fetch_failure ToString outcome ->
   searchBtn_click city1 city2 outcome = error_text)
  /\ (forall st data s,
        outcome = Responded st (Some data) ->
        response_ok st = true ->
        ToString data = Returned s ->
        searchBtn_click city1 city2 outcome = distance_text city1 city2 s
        /\ searchBtn_click city1 city2 outcome <> error_text).
Proof.
  split.
  - unfold searchBtn_click, fetch_failure.
    destruct outcome as [|st json]; [reflexivity|].
    intros [H|[H|(data & x & H & T)]].
    + now rewrite H.
    + rewrite H. now destruct (response_ok st).
    + rewrite H, T. now destruct (response_ok st).
  - intros st data s -> Hok T. unfold searchBtn_click. rewrite Hok, T.
    split; [reflexivity|]. discriminate.
Qed.
End Client.

(** * Part III: examples, witnesses and counterexamples *)

Example normalizeURL_ex1 :
  normalizeURL (lit "www.example.com/") = lit "https://example.com".
Proof. reflexivity. Qed.

Example normalizeURL_ex2 :
  normalizeURL (lit "http://example.com") = lit "https://example.com".
Proof. reflexivity. Qed.

(** C1 (counterexample): each promise of the specification fails at some
    base URL: a doubled scheme leaves [http://] in front, a doubled
    trailing slash leaves one behind, and a doubled [www.] leaves one
    after the scheme. *)
Lemma normalizeURL_counterexample :
  (normalizeURL (lit "http://http://example.com") = lit "http://example.com"
   /\ ~ normalized_as_specified (normalizeURL (lit "http://http://example.com")))
  /\ (normalizeURL (lit "example.com//") = lit "https://example.com/"
      /\ ~ normalized_as_specified (normalizeURL (lit "example.com//")))
  /\ (normalizeURL (lit "www.www.example.com") = lit "https://www.example.com"
      /\ ~ normalized_as_specified (normalizeURL (lit "www.www.example.com"))).
Proof.
  unfold normalized_as_specified.
  repeat split; try reflexivity; intros (H1 & H2 & H3); discriminate.
Qed.

Lemma normalizeURL_plain_host_witness :
  plain_host (lit "example.com") = true
  /\ (normalizeURL (spelled Http true (lit "example.com") true)
      = lit "https://" ++ lit "example.com"
      /\ normalized_as_specified
           (normalizeURL (spelled Http true (lit "example.com") true))).
Proof.
  split; [reflexivity|].
  apply (normalizeURL_plain_host Http true (lit "example.com") true).
  reflexivity.
Defined.

Example handleError_teapot :
  handleError no_rendering teapot_error
  = Returned (CDSError.make (lit "I am a teapot") (Some 418%Z)
                (CDSError.body (JObj [(lit "error", JStr (lit "I am a teapot"))]))).
Proof. reflexivity. Qed.



Lemma handleError_table_witness :
  AxiosError.response not_found_error
  = Some {| status := 404;
            data := JObj [(lit "error", JStr (lit "No such city"))] |}
  /\ handleError no_rendering not_found_error
     = Returned (CDSError.make
                   (lit "Resource not found. Check the endpoint URL.")
                   (Some 404%Z)
                   (CDSError.body (JObj [(lit "error", JStr (lit "No such city"))]))).
Proof.
  split; [reflexivity|].
  apply (proj1 (handleError_table no_rendering not_found_error
                  {| status := 404;
                     data := JObj [(lit "error", JStr (lit "No such city"))] |}
                  eq_refl)).
  reflexivity.
Defined.

Lemma handleError_no_response_witness :
  AxiosError.response timeout_error = None
  /\ handleError no_rendering timeout_error
     = Returned (CDSError.make
                   (lit "No response from server. Check your network connection.")
                   None (CDSError.request_object health_request)).
Proof.
  split; [reflexivity|].
  apply (proj1 (handleError_no_response no_rendering timeout_error eq_refl)).
  reflexivity.
Defined.

Lemma getSuggestions_short_query_witness :
  too_short (Some (lit "a"))
  /\ getSuggestions no_rendering network_or_idempotent 100 unreachable
       example_client (Some (lit "a")) []
     = (Thrown (ThrownCDSError
                  (CDSError.make (lit "Query must be at least 2 characters long")
                     None CDSError.nothing)),
        []).
Proof.
  split; [cbn; lia|].
  apply (getSuggestions_short_query no_rendering network_or_idempotent 100
           unreachable example_client (Some (lit "a")) []).
  cbn; lia.
Defined.

Lemma calculateDistance_empty_id_witness :
  (empty (Some (lit "")) \/ empty (Some (lit "x")))
  /\ calculateDistance no_rendering network_or_idempotent 100 unreachable
       example_client (Some (lit "")) (Some (lit "x")) []
     = (Thrown (ThrownCDSError
                  (CDSError.make (lit "Both city IDs are required")
                     None CDSError.nothing)),
        []).
Proof.
  split; [left; right; reflexivity|].
  apply (calculateDistance_empty_id no_rendering network_or_idempotent 100
           unreachable example_client (Some (lit "")) (Some (lit "x")) []).
  left; right; reflexivity.
Defined.

(** The three envelope shapes of the specification. *)
Example calculateDistance_distanceKm :
  fst (calculateDistance no_rendering network_or_idempotent 100
         (always 200 (JObj [(lit "distanceKm", JNum 1234.5)]))
         example_client (Some (lit "a")) (Some (lit "b")) [])
  = Returned (JNum 1234.5).
Proof. reflexivity. Qed.

Example calculateDistance_data :
  fst (calculateDistance no_rendering network_or_idempotent 100
         (always 200 (JObj [(lit "data", JNum 1234.5)]))
         example_client (Some (lit "a")) (Some (lit "b")) [])
  = Returned (JNum 1234.5).
Proof. reflexivity. Qed.

Example calculateDistance_bare :
  fst (calculateDistance no_rendering network_or_idempotent 100
         (always 200 (JNum 1234.5))
         example_client (Some (lit "a")) (Some (lit "b")) [])
  = Returned (JNum 1234.5).
Proof. reflexivity. Qed.

(** C2: when the service answers [{"distanceKm": 0}], the distance of a
    city from itself, [calculateDistance] sends one request and returns
    the whole body, an object, not the number [0] of its [distanceKm]
    field. *)
Theorem calculateDistance_zero_distance :
  calculateDistance no_rendering network_or_idempotent 100
    (always 200 (JObj [(lit "distanceKm", JNum 0)]))
    example_client (Some (lit "Paris")) (Some (lit "Paris")) []
  = (Returned (JObj [(lit "distanceKm", JNum 0)]),
     [Sent (distance_request (lit "Paris") (lit "Paris"))]).
Proof. reflexivity. Qed.

(** A body that is [null] makes the first property read throw. *)
Example calculateDistance_null_body :
  fst (calculateDistance no_rendering network_or_idempotent 100
         (always 200 JNull)
         example_client (Some (lit "a")) (Some (lit "b")) [])
  = Thrown ThrownTypeError.
Proof. reflexivity. Qed.

(** A 503 answer to every attempt: three retries with delays 100, 200 and
    400; the error has then passed through the response interceptor four
    times and has lost its status code and its body. *)
Example service_unavailable :
  let r := calculateDistance no_rendering network_or_idempotent 100
             (always 503 (JStr [])) example_client
             (Some (lit "a")) (Some (lit "b")) [] in
  sent_count (snd r) = 4%nat
  /\ delays (snd r) = [100; 200; 400]%Z
  /\ fst r = Thrown (ThrownRehandled
                       (Rehandled.make
                          (lit "Server error. Please try again later.")
                          JUndefined JUndefined)).
Proof. cbv zeta. repeat split. Qed.

(** C4: every attempt is answered with 503 and the body
    [{"status": 404}].  The call is retried three times, and what it
    rejects with is not a server error: the response interceptor runs
    again on the [CDSError] of the inner call, reads the body as if it
    were a response, and the caller gets the message of a 404 and no
    status code. *)
Theorem retried_503_not_a_server_error :
  let r := client_request no_rendering network_or_idempotent 100
             (always 503 (JObj [(lit "status", JNum 404)])) example_client
             (distance_request (lit "a") (lit "b")) [] in
  sent_count (snd r) = 4%nat
  /\ fst r = Thrown (ThrownRehandled
                       (Rehandled.make
                          (lit "Resource not found. Check the endpoint URL.")
                          JUndefined JUndefined))
  /\ lit "Resource not found. Check the endpoint URL."
     <> lit "Server error. Please try again later.".
Proof. cbv zeta. repeat split. discriminate. Qed.

(** C5: every attempt of [calculateDistance] is answered with 503 and the
    body [{"error": "Service Unavailable"}].  [handleError] gives the
    innermost failure the message of the table and the status 503, but
    the call was retried, the response interceptor ran again on that
    [CDSError], and the error the caller gets has the message without
    the status code. *)
Theorem retried_error_loses_statusCode :
  let r := calculateDistance no_rendering network_or_idempotent 100
             (always 503 (JObj [(lit "error", JStr (lit "Service Unavailable"))]))
             example_client (Some (lit "a")) (Some (lit "b")) [] in
  sent_count (snd r) = 4%nat
  /\ fst r = Thrown (ThrownRehandled
                       (Rehandled.make
                          (lit "Server error. Please try again later.")
                          JUndefined JUndefined)).
Proof. cbv zeta. repeat split. Qed.

(** A 404 answer: no retry, and the error of the table. *)
Example not_found :
  calculateDistance no_rendering network_or_idempotent 100
    (always 404 (JStr [])) example_client (Some (lit "a")) (Some (lit "b")) []
  = (Thrown (ThrownCDSError
               (CDSError.make (lit "Resource not found. Check the endpoint URL.")
                  (Some 404%Z) (CDSError.body (JStr [])))),
     [Sent (distance_request (lit "a") (lit "b"))]).
Proof. reflexivity. Qed.

(** [healthCheck] on a server that fails, a server that is not found and
    a network that does not answer. *)
Example healthCheck_failures :
  fst (healthCheck no_rendering network_or_idempotent 100
         (always 500 (JStr [])) example_client []) = Returned false
  /\ fst (healthCheck no_rendering network_or_idempotent 100
            (always 404 (JStr [])) example_client []) = Returned false
  /\ fst (healthCheck no_rendering network_or_idempotent 100
            unreachable example_client []) = Returned false
  /\ fst (healthCheck no_rendering network_or_idempotent 100
            (always 204 (JStr [])) example_client []) = Returned true.
Proof. repeat split. Qed.

Lemma calculateDistance_first_truthy_witness :
  let body := JObj [(lit "data", JNum 1234.5)] in
  let result :=
    fst (calculateDistance no_rendering network_or_idempotent 100
           (always 200 body) example_client
           (Some (lit "a")) (Some (lit "b")) []) in
  snd (calculateDistance no_rendering network_or_idempotent 100
         (always 200 body) example_client
         (Some (lit "a")) (Some (lit "b")) [])
  = [Sent (distance_request (lit "a") (lit "b"))]
  /\ (body = JNull -> result = Thrown ThrownTypeError)
  /\ (body <> JNull -> body <> JUndefined ->
      (truthy (get_opt body "distanceKm") = true ->
       result = Returned (get_opt body "distanceKm"))
      /\ (truthy (get_opt body "distanceKm") = false ->
          truthy (get_opt body "data") = true ->
          result = Returned (get_opt body "data"))
      /\ (truthy (get_opt body "distanceKm") = false ->
          truthy (get_opt body "data") = false ->
          result = Returned body)).
Proof.
  apply (calculateDistance_first_truthy no_rendering network_or_idempotent 100
           (always 200 (JObj [(lit "data", JNum 1234.5)])) example_client
           (lit "a") (lit "b") []
           [Sent (distance_request (lit "a") (lit "b"))]
           {| status := 200; data := JObj [(lit "data", JNum 1234.5)] |}).
  - discriminate.
  - discriminate.
  - reflexivity.
Defined.

Lemma getSuggestions_envelope_witness :
  getSuggestions no_rendering network_or_idempotent 100
    (always 200 (JObj [(lit "data", JArr [JStr (lit "Paris")])]))
    example_client (Some (lit "pa")) []
  = (Returned (JArr [JStr (lit "Paris")]),
     [Sent {| method := GET; url := lit "/suggestions";
              params := [(lit "q", lit "pa")]; payload := JUndefined |}]).
Proof.
  apply (proj2 (getSuggestions_envelope no_rendering network_or_idempotent 100
                  (always 200 (JObj [(lit "data", JArr [JStr (lit "Paris")])]))
                  example_client (lit "pa") []
                  [Sent {| method := GET; url := lit "/suggestions";
                           params := [(lit "q", lit "pa")];
                           payload := JUndefined |}]
                  {| status := 200;
                     data := JObj [(lit "data", JArr [JStr (lit "Paris")])] |}
                  [JStr (lit "Paris")]
                  (le_n 2) eq_refl)
           [(lit "data", JArr [JStr (lit "Paris")])] eq_refl eq_refl).
Defined.

Lemma normalizeURL_stable_witness :
  plain_host (lit "example.com") = true
  /\ normalizeURL (normalizeURL (spelled Http true (lit "example.com") true))
     = normalizeURL (spelled Http true (lit "example.com") true).
Proof.
  split; [reflexivity|].
  apply (normalizeURL_stable Http true (lit "example.com") true). reflexivity.
Defined.

Lemma normalizeURL_http_only_behind_prefix_witness :
  startsWith (normalizeURL (lit "www.http://example.com")) (lit "http://") = true
  /\ exists sch www rest,
       (sch <> NoScheme \/ www = true)
       /\ lit "www.http://example.com"
          = scheme_text sch ++ www_text www ++ lit "http://" ++ rest.
Proof.
  split; [reflexivity|].
  apply (normalizeURL_http_only_behind_prefix (lit "www.http://example.com")).
  reflexivity.
Defined.

Lemma normalizeURL_slash_only_when_doubled_witness :
  endsWith (normalizeURL (lit "example.com//")) (lit "/") = true
  /\ (endsWith (lit "example.com//") (lit "//") = true
      \/ exists sch www trailing,
           lit "example.com//"
           = scheme_text sch ++ www_text www ++ slash_text trailing).
Proof.
  split; [reflexivity|].
  apply (normalizeURL_slash_only_when_doubled (lit "example.com//")).
  reflexivity.
Defined.

Lemma normalizeURL_www_only_when_doubled_witness :
  www_after_scheme (normalizeURL (lit "www.www.example.com")) = true
  /\ exists sch www rest,
       lit "www.www.example.com" = scheme_text sch ++ www_text www ++ rest
       /\ ((www = true /\ startsWith rest (lit "www.") = true)
           \/ ((sch <> NoScheme \/ www = true) /\ www_after_scheme rest = true)).
Proof.
  split; [reflexivity|].
  apply (normalizeURL_www_only_when_doubled (lit "www.www.example.com")).
  reflexivity.
Defined.

Lemma handleError_throws_only_TypeError_witness :
  handleError no_rendering unprintable_error = Thrown ThrownTypeError
  /\ exists resp,
       AxiosError.response unprintable_error = Some resp
       /\ fixed_message (status resp) = None
       /\ forall s, original_message unprintable_error (data resp) <> JStr s.
Proof.
  split; [reflexivity|].
  apply (proj2 (handleError_throws_only_TypeError no_rendering unprintable_error
                  ThrownTypeError eq_refl)).
Defined.

Lemma handleError_statusCode_witness :
  let e := CDSError.make (lit "Resource not found. Check the endpoint URL.")
             (Some 404%Z)
             (CDSError.body (JObj [(lit "error", JStr (lit "No such city"))])) in
  handleError no_rendering not_found_error = Returned e
  /\ CDSError.statusCode e
     = option_map status (AxiosError.response not_found_error)
  /\ CDSError.response e
     = match AxiosError.response not_found_error,
             AxiosError.request not_found_error with
       | Some resp, _ => CDSError.body (data resp)
       | None, Some rq => CDSError.request_object rq
       | None, None => CDSError.nothing
       end.
Proof.
  cbv zeta. split; [reflexivity|].
  apply (handleError_statusCode no_rendering not_found_error). reflexivity.
Defined.

Lemma try_again_is_retried_witness :
  AxiosError.response unavailable_error
  = Some {| status := 503; data := JStr [] |}
  /\ fixed_message 503 = Some (lit "Server error. Please try again later.")
  /\ network_or_idempotent unavailable_error = false
  /\ retryCondition network_or_idempotent unavailable_error = true.
Proof.
  split; [reflexivity|]. split; [reflexivity|]. split; [reflexivity|].
  apply (proj1 (proj2 (try_again_is_retried network_or_idempotent
                         unavailable_error
                         {| status := 503; data := JStr [] |}
                         (lit "Server error. Please try again later.")
                         eq_refl eq_refl))).
  reflexivity.
Defined.

Lemma getSuggestions_body_witness :
  client_request no_rendering network_or_idempotent 100 (always 200 JNull)
    example_client (suggestions_request (lit "pa")) []
  = (Returned {| status := 200; data := JNull |},
     [Sent (suggestions_request (lit "pa"))])
  /\ fst (getSuggestions no_rendering network_or_idempotent 100
            (always 200 JNull) example_client (Some (lit "pa")) [])
     = Thrown ThrownTypeError.
Proof.
  split; [reflexivity|].
  apply (proj1 (getSuggestions_body no_rendering network_or_idempotent 100
                  (always 200 JNull) example_client (lit "pa") []
                  [Sent (suggestions_request (lit "pa"))]
                  {| status := 200; data := JNull |} (le_n 2) eq_refl)).
  left. reflexivity.
Defined.

Lemma search_settles_witness :
  (2 <= List.length (lit "pa"))%nat
  /\ useCitySuggestions.loading
       (useCitySuggestions.after useCitySuggestions.initial
          (updates (search no_rendering network_or_idempotent 100
                      (always 503 (JStr [])) example_options (lit "pa") [])))
     = false.
Proof.
  split; [apply le_n|].
  apply (proj1 (search_settles no_rendering network_or_idempotent 100
                  (always 503 (JStr [])) example_options (lit "pa")
                  useCitySuggestions.initial [] (le_n 2))).
Defined.

Lemma calculate_empty_id_witness :
  let r := calculate no_rendering network_or_idempotent 100 unreachable
             example_options (lit "") (lit "x") [] in
  (lit "" = [] \/ lit "x" = [])
  /\ log_after r = []
  /\ reported r = [ids_required]
  /\ useDistanceCalculation.after useDistanceCalculation.initial (updates r)
     = useDistanceCalculation.make JNull false (Some ids_required).
Proof.
  cbv zeta. split; [left; reflexivity|].
  apply (calculate_empty_id no_rendering network_or_idempotent 100 unreachable
           example_options (lit "") (lit "x") useDistanceCalculation.initial []).
  left. reflexivity.
Defined.

(** The page on a body that is an object: the sentence ends in the
    default text of an object. *)
Example searchBtn_click_object :
  searchBtn_click no_rendering (lit "Paris") (lit "Rome")
    (Responded 200 (Some (JObj [(lit "distanceKm", JNum 1105.5)])))
  = lit "Distance between 'Paris' and 'Rome' is: [object Object]".
Proof. reflexivity. Qed.

(** A search that fails keeps the suggestions that were shown. *)
Example search_keeps_stale_suggestions :
  let shown := useCitySuggestions.make (JArr [JStr (lit "Paris")]) false None in
  useCitySuggestions.suggestions
    (useCitySuggestions.after shown
       (updates (search no_rendering network_or_idempotent 100
                   (always 404 (JStr [])) example_options (lit "ro") [])))
  = JArr [JStr (lit "Paris")].
Proof. reflexivity. Qed.
